(** * The CSV geocoding tool: [src/app/page.tsx]

    A shallow embedding of the row-processing pipeline of [GeocodingApp]
    ([geocodeAddress] and [processFile]) together with the properties of the
    run tally, of the augmented rows and of the effects the run performs
    (requests, progress reports, delays). *)

From Stdlib Require Import List String Ascii Bool Arith Lia QArith PrimFloat DecimalString Sorted.
From Stdlib Require Import Qround Qpower Qreduction Lqa.
From Stdlib Require FloatOps SpecFloat Uint63.
Import ListNotations.

Local Open Scope string_scope.
Local Open Scope list_scope.
Local Open Scope nat_scope.

Set Warnings "-register-all".

(** * JavaScript values and the built-ins the program relies on *)

Module JS.

(** Values that reach the program: parsed JSON plus [undefined].  Numbers
    are IEEE 754 doubles.  An object lists its own properties in
    insertion order; keys are unique, and a lookup takes the first match. *)
Inductive value : Type :=
| Undefined
| Null
| Bool (b : bool)
| Num (x : float)
| Str (s : string)
| Arr (items : list value)
| Obj (props : list (string * value)).

(** What the engine decides and the program only passes on: the decimal
    text of a number, the wording of the TypeErrors it raises, and the text
    it prints for a member of [Object.prototype]. *)
Record engine : Type := {
  number_text : float -> string;
  cannot_read : value -> string -> string;
  cannot_convert : string;
  member_text : string -> string
}.

(** ToBoolean. *)
Definition truthy (v : value) : bool :=
  match v with
  | Undefined | Null => false
  | Bool b => b
  | Num x => negb (PrimFloat.eqb x 0%float || negb (PrimFloat.eqb x x))
  | Str s => negb (String.eqb s "")
  | Arr _ | Obj _ => true
  end.

Definition nullish (v : value) : bool :=
  match v with
  | Undefined | Null => true
  | _ => false
  end.

(** [v === 'text'] *)
Definition is_string (v : value) (text : string) : bool :=
  match v with
  | Str s => String.eqb s text
  | _ => false
  end.

Fixpoint lookup {A : Type} (k : string) (props : list (string * A)) : option A :=
  match props with
  | [] => None
  | (k', v) :: rest => if String.eqb k' k then Some v else lookup k rest
  end.

(** [o.k = v] on an object: an existing property keeps its place, a new
    one goes last. *)
Fixpoint assign {A : Type} (k : string) (v : A) (props : list (string * A))
  : list (string * A) :=
  match props with
  | [] => [(k, v)]
  | (k', v') :: rest =>
      if String.eqb k' k then (k', v) :: rest else (k', v') :: assign k v rest
  end.

Definition keys {A : Type} (props : list (string * A)) : list string :=
  map fst props.

(** The names every plain object answers to without having them: the
    members of [Object.prototype].  All of them are functions, but
    [__proto__], which is the prototype itself; none is falsy. *)
Definition prototype_members : list string :=
  ["constructor"; "hasOwnProperty"; "isPrototypeOf"; "propertyIsEnumerable";
   "toLocaleString"; "toString"; "valueOf"; "__proto__";
   "__defineGetter__"; "__defineSetter__"; "__lookupGetter__";
   "__lookupSetter__"].

Definition inherited (k : string) : bool :=
  existsb (String.eqb k) prototype_members.

(** [k in o], for own properties. *)
Definition has {A : Type} (k : string) (props : list (string * A)) : bool :=
  existsb (fun k' => String.eqb k' k) (keys props).

(** A property key: a name ([v.name]) or an array index ([v[n]]). *)
Inductive key : Type :=
| Name (s : string)
| Index (n : nat).

Definition key_text (k : key) : string :=
  match k with
  | Name s => s
  | Index n => NilEmpty.string_of_uint (Nat.to_uint n)
  end.

(** Reading a property of a value that is neither [null] nor [undefined].
    The names this program reads ([status], [results], [geometry],
    [location], [lat], [lng]) are not properties of arrays, strings,
    numbers or booleans, nor of [Object.prototype]. *)
Definition property (v : value) (k : key) : value :=
  match v, k with
  | Obj props, _ =>
      match lookup (key_text k) props with
      | Some x => x
      | None => Undefined
      end
  | Arr items, Index n => nth n items Undefined
  | Str s, Index n =>
      match String.get n s with
      | Some c => Str (String c EmptyString)
      | None => Undefined
      end
  | _, _ => Undefined
  end.

(** Hexadecimal digit, upper case. *)
Definition hex_digit (n : nat) : ascii :=
  if n <? 10 then ascii_of_nat (48 + n) else ascii_of_nat (55 + n).

(** The characters [encodeURIComponent] leaves alone:
    [A-Z a-z 0-9 - _ . ! ~ * ' ( )]. *)
Definition uri_unreserved (c : ascii) : bool :=
  let n := nat_of_ascii c in
  ((65 <=? n) && (n <=? 90)) || ((97 <=? n) && (n <=? 122))
  || ((48 <=? n) && (n <=? 57))
  || existsb (Nat.eqb n) [45; 95; 46; 33; 126; 42; 39; 40; 41].

(** [encodeURIComponent] on a string held as its UTF-8 bytes: every byte
    that is not unreserved becomes [%XX]. *)
Fixpoint encodeURIComponent (s : string) : string :=
  match s with
  | EmptyString => EmptyString
  | String c rest =>
      if uri_unreserved c then String c (encodeURIComponent rest)
      else
        let n := nat_of_ascii c in
        String "%" (String (hex_digit (n / 16)) (String (hex_digit (n mod 16))
          (encodeURIComponent rest)))
  end.

(** A thrown value; the program reads nothing of it but [message]. *)
Record exn : Type := Thrown { message : string }.

(** ToString, as a template literal applies it.  An array is joined with
    commas, [null] and [undefined] elements giving the empty text; an
    object gives [[object Object]], unless it has a property [toString] of
    its own, which parsed JSON cannot make callable, so the conversion
    ends in a TypeError. *)
Fixpoint ToString (E : engine) (v : value) : exn + string :=
  match v with
  | Undefined => inr "undefined"
  | Null => inr "null"
  | Bool true => inr "true"
  | Bool false => inr "false"
  | Num x => inr (number_text E x)
  | Str s => inr s
  | Arr items =>
      let texts :=
        (fix each (l : list value) : exn + list string :=
           match l with
           | [] => inr []
           | x :: rest =>
               match (if nullish x then inr "" else ToString E x) with
               | inl e => inl e
               | inr t =>
                   match each rest with
                   | inl e => inl e
                   | inr ts => inr (t :: ts)
                   end
               end
           end) items in
      match texts with
      | inl e => inl e
      | inr ts => inr (String.concat "," ts)
      end
  | Obj props =>
      match lookup "toString" props with
      | Some _ => inl (Thrown (cannot_convert E))
      | None => inr "[object Object]"
      end
  end.

(** ** Numbers in arithmetic

    A finite double is kept as the rational it denotes, and an operation
    gives the double nearest to the exact result, ties going to the even
    significand: 53 bits, exponents from -1022 on.  A result of 2^1024 or
    more has no rational to stand for it; the numbers the program computes
    with stay between 0 and 100. *)

Definition pow2 (z : Z) : Q := (2 ^ z)%Q.

(** The exponent [e] of a positive number: [2^e <= x < 2^(e+1)]. *)
Definition ilog2 (x : Q) : Z :=
  let e0 := (Z.log2 (Qnum x) - Z.log2 (Zpos (Qden x)))%Z in
  if Qle_bool (pow2 e0) x then e0 else (e0 - 1)%Z.

(** The nearest integer, ties to even. *)
Definition rne (q : Q) : Z :=
  let f := Qfloor q in
  match Qcompare (q - inject_Z f) (1 # 2) with
  | Lt => f
  | Gt => (f + 1)%Z
  | Eq => if Z.even f then f else (f + 1)%Z
  end.

(** The double nearest to a positive number. *)
Definition nearest (x : Q) : Q :=
  let s := (52 - Z.max (ilog2 x) (-1022))%Z in
  Qred (inject_Z (rne (x * pow2 s)) * pow2 (- s)).

Definition to_double (x : Q) : Q :=
  match Qcompare x 0 with
  | Eq => 0%Q
  | Gt => nearest x
  | Lt => (- nearest (- x))%Q
  end.

(** [x / y] and [x * y] on doubles, [y] not zero. *)
Definition divide (x y : Q) : Q := to_double (x / y).

Definition multiply (x y : Q) : Q := to_double (x * y).

(** The same on the doubles of the machine, to compare with: the rational
    a double denotes, and an index or a length as a double. *)
Definition double_value (x : float) : option Q :=
  match FloatOps.Prim2SF x with
  | SpecFloat.S754_zero _ => Some 0%Q
  | SpecFloat.S754_finite sign m e =>
      Some (Qred ((if sign then - (1) else 1) * inject_Z (Zpos m) * pow2 e))
  | _ => None
  end.

Definition double_of_nat (k : nat) : float :=
  PrimFloat.of_uint63 (Uint63.of_Z (Z.of_nat k)).

End JS.

(** * The component *)

Module App.
Import JS.

(** ** Data *)

(** A field of a row as Papa Parse delivers it in header mode without
    dynamic typing: a text, or, under [__parsed_extra], the list of the
    surplus fields of a line longer than the header. *)
Inductive cell : Type :=
| Text (s : string)
| Extra (fields : list string).

Definition record : Type := list (string * cell).

Definition cell_value (c : cell) : value :=
  match c with
  | Text s => Str s
  | Extra fields => Arr (map Str fields)
  end.

Definition cell_truthy (c : cell) : bool := truthy (cell_value c).

(** The text of a cell inside [Array.prototype.join]. *)
Definition cell_text (c : cell) : string :=
  match c with
  | Text s => s
  | Extra fields => String.concat "," fields
  end.

(** What [row[col]] gives when it gives something: a field of the row,
    or, for a name the row has no field of, the member of
    [Object.prototype] of that name. *)
Inductive piece : Type :=
| Field (x : cell)
| Inherited (name : string).

(** [row[col]]; [None] is [undefined]. *)
Definition at_key (col : string) (row : list (string * cell)) : option piece :=
  match lookup col row with
  | Some x => Some (Field x)
  | None => if inherited col then Some (Inherited col) else None
  end.

Definition piece_truthy (x : piece) : bool :=
  match x with
  | Field x => cell_truthy x
  | Inherited _ => true
  end.

(** The text of a piece inside [Array.prototype.join]. *)
Definition piece_text (E : engine) (x : piece) : string :=
  match x with
  | Field x => cell_text x
  | Inherited name => member_text E name
  end.

(** [parts.join(sep)] *)
Definition join (E : engine) (sep : string) (parts : list piece) : string :=
  String.concat sep (map (piece_text E) parts).

(** An output row: the fields of the input row, and after a successful
    lookup [Latitude] and [Longitude], which hold whatever the response
    held. *)
Definition augmented : Type := list (string * value).

(** [{ ...row }] *)
Definition spread (row : record) : augmented :=
  map (fun kv => (fst kv, cell_value (snd kv))) row.

Record ErrorDetail : Type := {
  row : nat;
  error : string;
  location : string
}.

Record GeocodingResults : Type := {
  totalRows : nat;
  processedRows : nat;
  skippedRows : list nat;
  errors : list ErrorDetail
}.

(** An uploaded file, seen through what
    [Papa.parse(file, {header: true, skipEmptyLines: true})] does with it:
    it calls [complete] with the rows or [error] with a message. *)
Inductive File : Type :=
| Complete (data : list record)
| Unreadable (message : string).

(** The state of the component that [processFile] reads or sets. *)
Module State.
Record t : Type := {
  file : option File;
  apiKey : string;
  addressCol : string;
  cityCol : string;
  countryCol : string;
  processing : bool;
  progress : Q;
  error : string;
  results : option GeocodingResults;
  geocodedData : option (list augmented)
}.
End State.

(** What the geocoding service sends back. *)
Inductive body : Type :=
| Malformed (message : string)
| Json (data : value).

Inductive reply : Type :=
| NetworkError (message : string)
| Response (b : body).

(** The service: the reply to a request, given how many requests were
    made before it and its URL. *)
Definition service : Type := nat -> string -> reply.

(** What the run does that can be observed from outside. *)
Inductive event : Type :=
| Fetch (url : string)
| Timeout (ms : nat)
| SetProcessing (b : bool)
| SetProgress (q : Q)
| SetError (text : string)
| SetResults (r : GeocodingResults)
| SetGeocodedData (rows : list augmented)
| Unhandled (e : exn).

(** ** State of a run and its monad *)

(** The variables of [processFile] and of its [complete] callback that
    change during a run, the component state as the setters leave it, and
    the events so far, oldest first. *)
Record frame : Type := {
  ui : State.t;
  results : GeocodingResults;
  processed : list augmented;
  newRow : augmented;
  log : list event
}.

(** A computation changes the frame and returns or throws; what it did
    before throwing stays done. *)
Definition M (A : Type) : Type := frame -> (exn + A) * frame.

Definition ret {A : Type} (a : A) : M A := fun s => (inr a, s).

Definition throw {A : Type} (e : exn) : M A := fun s => (inl e, s).

Definition bind {A B : Type} (c : M A) (k : A -> M B) : M B :=
  fun s =>
    match c s with
    | (inr a, s') => k a s'
    | (inl e, s') => (inl e, s')
    end.

Definition try_catch {A : Type} (c : M A) (handler : exn -> M A) : M A :=
  fun s =>
    match c s with
    | (inr a, s') => (inr a, s')
    | (inl e, s') => handler e s'
    end.

Declare Scope run_scope.
Delimit Scope run_scope with run.
Notation "x <- c ;; k" := (bind c (fun x => k))
  (at level 61, c at next level, right associativity) : run_scope.
Notation "c ;; k" := (bind c (fun _ => k))
  (at level 61, right associativity) : run_scope.
Local Open Scope run_scope.

Definition emit (e : event) : M unit :=
  fun s =>
    (inr tt,
     {| ui := ui s; results := results s; processed := processed s;
        newRow := newRow s; log := log s ++ [e] |}).

Definition modify_ui (f : State.t -> State.t) : M unit :=
  fun s =>
    (inr tt,
     {| ui := f (ui s); results := results s; processed := processed s;
        newRow := newRow s; log := log s |}).

Definition modify_results (f : GeocodingResults -> GeocodingResults) : M unit :=
  fun s =>
    (inr tt,
     {| ui := ui s; results := f (results s); processed := processed s;
        newRow := newRow s; log := log s |}).

Definition modify_processed (f : list augmented -> list augmented) : M unit :=
  fun s =>
    (inr tt,
     {| ui := ui s; results := results s; processed := f (processed s);
        newRow := newRow s; log := log s |}).

Definition modify_newRow (f : augmented -> augmented) : M unit :=
  fun s =>
    (inr tt,
     {| ui := ui s; results := results s; processed := processed s;
        newRow := f (newRow s); log := log s |}).

Definition read {A : Type} (f : frame -> A) : M A := fun s => (inr (f s), s).

(** *** The setters of the component state *)

Definition with_processing (b : bool) (u : State.t) : State.t :=
  {| State.file := State.file u; State.apiKey := State.apiKey u;
     State.addressCol := State.addressCol u; State.cityCol := State.cityCol u;
     State.countryCol := State.countryCol u; State.processing := b;
     State.progress := State.progress u; State.error := State.error u;
     State.results := State.results u;
     State.geocodedData := State.geocodedData u |}.

Definition with_progress (q : Q) (u : State.t) : State.t :=
  {| State.file := State.file u; State.apiKey := State.apiKey u;
     State.addressCol := State.addressCol u; State.cityCol := State.cityCol u;
     State.countryCol := State.countryCol u;
     State.processing := State.processing u;
     State.progress := q; State.error := State.error u;
     State.results := State.results u;
     State.geocodedData := State.geocodedData u |}.

Definition with_error (text : string) (u : State.t) : State.t :=
  {| State.file := State.file u; State.apiKey := State.apiKey u;
     State.addressCol := State.addressCol u; State.cityCol := State.cityCol u;
     State.countryCol := State.countryCol u;
     State.processing := State.processing u;
     State.progress := State.progress u; State.error := text;
     State.results := State.results u;
     State.geocodedData := State.geocodedData u |}.

Definition with_results (r : GeocodingResults) (u : State.t) : State.t :=
  {| State.file := State.file u; State.apiKey := State.apiKey u;
     State.addressCol := State.addressCol u; State.cityCol := State.cityCol u;
     State.countryCol := State.countryCol u;
     State.processing := State.processing u;
     State.progress := State.progress u; State.error := State.error u;
     State.results := Some r;
     State.geocodedData := State.geocodedData u |}.

Definition with_geocodedData (rows : list augmented) (u : State.t) : State.t :=
  {| State.file := State.file u; State.apiKey := State.apiKey u;
     State.addressCol := State.addressCol u; State.cityCol := State.cityCol u;
     State.countryCol := State.countryCol u;
     State.processing := State.processing u;
     State.progress := State.progress u; State.error := State.error u;
     State.results := State.results u;
     State.geocodedData := Some rows |}.

Definition setProcessing (b : bool) : M unit :=
  modify_ui (with_processing b) ;; emit (SetProcessing b).

Definition setProgress (q : Q) : M unit :=
  modify_ui (with_progress q) ;; emit (SetProgress q).

Definition setError (text : string) : M unit :=
  modify_ui (with_error text) ;; emit (SetError text).

Definition setResults (r : GeocodingResults) : M unit :=
  modify_ui (with_results r) ;; emit (SetResults r).

Definition setGeocodedData (rows : list augmented) : M unit :=
  modify_ui (with_geocodedData rows) ;; emit (SetGeocodedData rows).

(** *** Updates of the tally *)

Definition with_totalRows (n : nat) (r : GeocodingResults) : GeocodingResults :=
  {| totalRows := n; processedRows := processedRows r;
     skippedRows := skippedRows r; errors := errors r |}.

(** [results.processedRows++] *)
Definition incr_processedRows (r : GeocodingResults) : GeocodingResults :=
  {| totalRows := totalRows r; processedRows := processedRows r + 1;
     skippedRows := skippedRows r; errors := errors r |}.

(** [results.skippedRows.push(index)] *)
Definition push_skippedRows (index : nat) (r : GeocodingResults) : GeocodingResults :=
  {| totalRows := totalRows r; processedRows := processedRows r;
     skippedRows := skippedRows r ++ [index]; errors := errors r |}.

(** [results.errors.push(entry)] *)
Definition push_errors (entry : ErrorDetail) (r : GeocodingResults) : GeocodingResults :=
  {| totalRows := totalRows r; processedRows := processedRows r;
     skippedRows := skippedRows r; errors := errors r ++ [entry] |}.

(** ** The program *)

(** The requests in a log. *)
Fixpoint requests (l : list event) : nat :=
  match l with
  | [] => 0
  | Fetch _ :: rest => S (requests rest)
  | _ :: rest => requests rest
  end.

Section Program.

(** The engine, the service, and the state of the render whose
    [processFile] runs: the values its closures captured. *)
Variable E : engine.
Variable net : service.
Variable c : State.t.

(** [await fetch(url)] *)
Definition fetch (url : string) : M body :=
  fun s =>
    let answer := net (requests (log s)) url in
    match emit (Fetch url) s with
    | (_, s') =>
        match answer with
        | NetworkError text => (inl (Thrown text), s')
        | Response b => (inr b, s')
        end
    end.

(** [await response.json()] *)
Definition json (response : body) : M value :=
  match response with
  | Malformed text => throw (Thrown text)
  | Json data => ret data
  end.

(** [v.k] and [v[k]]: a TypeError on [null] and [undefined]. *)
Definition get (v : value) (k : key) : M value :=
  if nullish v then throw (Thrown (cannot_read E v (key_text k)))
  else ret (property v k).

(** [v?.[k]] *)
Definition get_optional (v : value) (k : key) : M value :=
  if nullish v then ret Undefined else get v k.

(** A value inside a template literal. *)
Definition text_of (v : value) : M string :=
  match ToString E v with
  | inl e => throw e
  | inr t => ret t
  end.

Definition geocodeAddress (address : string) : M value :=
  let encodedAddress := encodeURIComponent address in
  let url :=
    ("https://maps.googleapis.com/maps/api/geocode/json?address="
       ++ encodedAddress ++ "&key=" ++ State.apiKey c)%string in
  response <- fetch url ;;
  data <- json response ;;
  status <- get data (Name "status") ;;
  if negb (is_string status "OK") then
    t <- text_of status ;;
    throw (Thrown ("Geocoding failed: " ++ t)%string)
  else ret data.

(** [if (col && row[col]) locationParts.push(row[col])] *)
Definition part (col : string) (row : record) : list piece :=
  if truthy (Str col) then
    match at_key col row with
    | Some x => if piece_truthy x then [x] else []
    | None => []
    end
  else [].

Definition locationParts (row : record) : list piece :=
  part (State.addressCol c) row ++ part (State.cityCol c) row
    ++ part (State.countryCol c) row.

(** The body of the inner [try]. *)
Definition geocode_row (i : nat) (parts : list piece) : M unit :=
  let locationString := join E ", " parts in
  response <- geocodeAddress locationString ;;
  found <- get response (Name "results") ;;
  first <- get_optional found (Index 0) ;;
  if truthy first then
    found <- get response (Name "results") ;;
    first <- get found (Index 0) ;;
    geometry <- get first (Name "geometry") ;;
    location <- get geometry (Name "location") ;;
    lat <- get location (Name "lat") ;;
    modify_newRow (assign "Latitude" lat) ;;
    lng <- get location (Name "lng") ;;
    modify_newRow (assign "Longitude" lng) ;;
    modify_results incr_processedRows
  else modify_results (push_skippedRows (i + 1)).

(** The [catch] that goes with it. *)
Definition record_failure (i : nat) (parts : list piece) (e : exn) : M unit :=
  modify_results
    (push_errors
       {| row := i + 1; error := message e; location := join E ", " parts |}) ;;
  modify_results (push_skippedRows (i + 1)).

(** [(i + 1) / data.length * 100] in doubles: the quotient is rounded,
    then the product.  The loop evaluates it only when there are rows. *)
Definition percent (i n : nat) : Q :=
  multiply (divide (inject_Z (Z.of_nat (i + 1))) (inject_Z (Z.of_nat n))) 100.

(** The same computed by the machine's doubles. *)
Definition float_percent (i n : nat) : float :=
  (double_of_nat (i + 1) / double_of_nat n * 100)%float.

(** Whether the two agree on every report of a table of [n] rows. *)
Definition agree (n : nat) : bool :=
  forallb (fun i => match double_value (float_percent i n) with
                    | Some q => Qeq_bool q (percent i n)
                    | None => false
                    end) (seq 0 n).

(** [k] of [n], exactly. *)
Definition share (k n : nat) : Q :=
  (inject_Z (Z.of_nat k) / inject_Z (Z.of_nat n))%Q.

(** One turn of the [for] loop, for [row = data[i]] and
    [n = data.length]. *)
Definition iteration (i n : nat) (row : record) : M unit :=
  let parts := locationParts row in
  modify_newRow (fun _ => spread row) ;;
  (if 0 <? List.length parts then
     try_catch (geocode_row i parts) (record_failure i parts)
   else modify_results (push_skippedRows (i + 1))) ;;
  r <- read newRow ;;
  modify_processed (fun rows => rows ++ [r]) ;;
  setProgress (percent i n) ;;
  emit (Timeout 200).

(** [for (let i = ...; i < data.length; i++)] over the rows from
    [data[i]] on. *)
Fixpoint loop (i n : nat) (rows : list record) : M unit :=
  match rows with
  | [] => ret tt
  | row :: rest => iteration i n row ;; loop (i + 1) n rest
  end.

(** The [complete] callback: [results.totalRows = data.length],
    [const processed = []], the loop, and the three setters. *)
Definition complete (data : list record) : M unit :=
  modify_results (with_totalRows (List.length data)) ;;
  modify_processed (fun _ => []) ;;
  loop 0 (List.length data) data ;;
  r <- read results ;;
  setResults r ;;
  rows <- read processed ;;
  setGeocodedData rows ;;
  setProcessing false.

(** Papa Parse calls [complete] later, on its own: what an [async]
    callback throws rejects a promise nobody awaits and never reaches
    the caller. *)
Definition detached (callback : M unit) : M unit :=
  try_catch callback (fun e => emit (Unhandled e)).

(** [Papa.parse(file, { header: true, skipEmptyLines: true, complete, error })] *)
Definition parse (f : File) : M unit :=
  match f with
  | Complete data => detached (complete data)
  | Unreadable text =>
      setError ("Error processing file: " ++ text)%string ;;
      setProcessing false
  end.

(** The two guards, then the run proper inside the outer [try]; the
    [catch] of that [try] sees only what [Papa.parse] itself throws. *)
Definition processFile : M unit :=
  match State.file c with
  | None =>
      setError "Please select a file and at least one location column"
  | Some f =>
      if negb (truthy (Str (State.addressCol c)))
         && negb (truthy (Str (State.cityCol c)))
         && negb (truthy (Str (State.countryCol c)))
      then
        setError "Please select a file and at least one location column"
      else if negb (truthy (Str (State.apiKey c))) then
        setError "Please enter your Google Maps API Key"
      else
        setProcessing true ;;
        setError "" ;;
        setProgress 0 ;;
        try_catch
          (modify_results
             (fun _ =>
                {| totalRows := 0; processedRows := 0;
                   skippedRows := []; errors := [] |}) ;;
           parse f)
          (fun e =>
             setError ("Error: " ++ message e)%string ;;
             setProcessing false)
  end.

(** The frame in which [processFile] starts: the component as rendered,
    nothing logged; the local variables are not yet initialised. *)
Definition start : frame :=
  {| ui := c;
     results := {| totalRows := 0; processedRows := 0;
                   skippedRows := []; errors := [] |};
     processed := [];
     newRow := [];
     log := [] |}.

Definition run : frame := snd (processFile start).

End Program.

(** ** What a run amounts to

    The same program read as plain functions: how a reply is classified,
    and what one turn of the loop makes of the tally, of the output and of
    the log.  [iteration_after] and [loop_after] below show that the
    program computes exactly this. *)

(** The outcome of a lookup (section 3 of the specification); the
    coordinates are whatever the response held under [lat] and [lng]. *)
Inductive Outcome : Type :=
| Resolved (lat lng : value)
| Unresolved
| Failed (errorMessage : string).

Section Meaning.

Variable E : engine.
Variable net : service.
Variable c : State.t.

Definition geocode_url (address : string) : string :=
  ("https://maps.googleapis.com/maps/api/geocode/json?address="
   ++ encodeURIComponent address ++ "&key=" ++ State.apiKey c)%string.

(** [response.results?.[0]] *)
Definition first_result (response : value) : value :=
  let found := property response (Name "results") in
  if nullish found then Undefined else property found (Index 0).


(** What [geocodeAddress] and the inner [try] make of a reply. *)
Definition classify (answer : reply) : Outcome :=
  match answer with
  | NetworkError text => Failed text
  | Response (Malformed text) => Failed text
  | Response (Json data) =>
      if nullish data then Failed (cannot_read E data "status")
      else
        let status := property data (Name "status") in
        if negb (is_string status "OK") then
          match ToString E status with
          | inl e => Failed (message e)
          | inr t => Failed ("Geocoding failed: " ++ t)%string
          end
        else
          let first := first_result data in
          if truthy first then
            let geometry := property first (Name "geometry") in
            if nullish geometry then Failed (cannot_read E geometry "location")
            else
              let location := property geometry (Name "location") in
              if nullish location then Failed (cannot_read E location "lat")
              else Resolved (property location (Name "lat"))
                            (property location (Name "lng"))
          else Unresolved
  end.

(** The frame once a request is out. *)
Definition requesting (url : string) (s : frame) : frame :=
  {| ui := ui s; results := results s; processed := processed s;
     newRow := newRow s; log := log s ++ [Fetch url] |}.

(** The query of a row, if it has one. *)
Definition query (row : record) : option string :=
  let parts := locationParts c row in
  if 0 <? List.length parts then Some (join E ", " parts) else None.

(** How a row is handled when [k] requests were made before it: [None]
    when it has no query, else the outcome of its one request. *)
Definition handling (k : nat) (row : record) : option Outcome :=
  match query row with
  | None => None
  | Some q => Some (classify (net k (geocode_url q)))
  end.

Definition requested (row : record) : list event :=
  match query row with
  | None => []
  | Some q => [Fetch (geocode_url q)]
  end.

Definition tally_after (i : nat) (row : record) (h : option Outcome)
    (r : GeocodingResults) : GeocodingResults :=
  match h with
  | Some (Resolved _ _) => incr_processedRows r
  | Some Unresolved | None => push_skippedRows (i + 1) r
  | Some (Failed text) =>
      push_skippedRows (i + 1)
        (push_errors
           {| row := i + 1; error := text;
              location := join E ", " (locationParts c row) |} r)
  end.

Definition row_after (row : record) (h : option Outcome) : augmented :=
  match h with
  | Some (Resolved lat lng) =>
      assign "Longitude" lng (assign "Latitude" lat (spread row))
  | _ => spread row
  end.

(** The frame after the turn for [row = data[i]]. *)
Definition after (i n : nat) (row : record) (s : frame) : frame :=
  let h := handling (requests (log s)) row in
  {| ui := with_progress (percent i n) (ui s);
     results := tally_after i row h (results s);
     processed := processed s ++ [row_after row h];
     newRow := row_after row h;
     log := log s ++ requested row ++ [SetProgress (percent i n); Timeout 200] |}.

Fixpoint after_all (i n : nat) (rows : list record) (s : frame) : frame :=
  match rows with
  | [] => s
  | row :: rest => after_all (i + 1) n rest (after i n row s)
  end.

(** The frame when the loop over [n] rows starts. *)
Definition begun (n : nat) : frame :=
  {| ui := with_progress 0 (with_error "" (with_processing true c));
     results := {| totalRows := n; processedRows := 0;
                   skippedRows := []; errors := [] |};
     processed := [];
     newRow := [];
     log := [SetProcessing true; SetError ""; SetProgress 0] |}.

(** The frame when the run is over, from the one the loop left. *)
Definition finished (s : frame) : frame :=
  {| ui := with_processing false
             (with_geocodedData (processed s) (with_results (results s) (ui s)));
     results := results s;
     processed := processed s;
     newRow := newRow s;
     log := log s ++ [SetResults (results s); SetGeocodedData (processed s);
                      SetProcessing false] |}.

(** The tally after the rows [rows], handled as [hs] says, the first of
    them being [data[i]]. *)
Fixpoint tally_all (i : nat) (rows : list record) (hs : list (option Outcome))
    (r : GeocodingResults) : GeocodingResults :=
  match rows, hs with
  | row :: rest, h :: hs' => tally_all (i + 1) rest hs' (tally_after i row h r)
  | _, _ => r
  end.

(** The handling of each of [rows], the first of them being reached
    after [k] requests. *)
Fixpoint handlings (k : nat) (rows : list record) : list (option Outcome) :=
  match rows with
  | [] => []
  | row :: rest =>
      handling k row
        :: handlings (k + List.length (requested row)) rest
  end.

(** The same tally, bucket by bucket: how many rows were resolved, the
    1-based indices of the others, and the entries of the failed ones. *)
Fixpoint resolved_count (rows : list record) (hs : list (option Outcome)) : nat :=
  match rows, hs with
  | _ :: rest, h :: hs' =>
      match h with
      | Some (Resolved _ _) => 1 + resolved_count rest hs'
      | _ => resolved_count rest hs'
      end
  | _, _ => 0
  end.

Fixpoint skipped_indices (i : nat) (rows : list record)
    (hs : list (option Outcome)) : list nat :=
  match rows, hs with
  | _ :: rest, h :: hs' =>
      match h with
      | Some (Resolved _ _) => skipped_indices (i + 1) rest hs'
      | _ => (i + 1) :: skipped_indices (i + 1) rest hs'
      end
  | _, _ => []
  end.

Fixpoint failures (i : nat) (rows : list record) (hs : list (option Outcome))
  : list ErrorDetail :=
  match rows, hs with
  | row :: rest, h :: hs' =>
      match h with
      | Some (Failed text) =>
          {| row := i + 1; error := text;
             location := join E ", " (locationParts c row) |}
            :: failures (i + 1) rest hs'
      | _ => failures (i + 1) rest hs'
      end
  | _, _ => []
  end.

(** The output rows for [rows], handled as [hs] says. *)
Definition rows_after (rows : list record) (hs : list (option Outcome))
  : list augmented :=
  map (fun p => row_after (fst p) (snd p)) (combine rows hs).

(** How many of [rows] have a query. *)
Definition with_query (rows : list record) : nat :=
  List.length (flat_map requested rows).

(** The two guards of [processFile]: the message it stops with, if it
    stops. *)
Definition refusal : option string :=
  match State.file c with
  | None => Some "Please select a file and at least one location column"
  | Some _ =>
      if negb (truthy (Str (State.addressCol c)))
         && negb (truthy (Str (State.cityCol c)))
         && negb (truthy (Str (State.countryCol c)))
      then Some "Please select a file and at least one location column"
      else if negb (truthy (Str (State.apiKey c))) then
        Some "Please enter your Google Maps API Key"
      else None
  end.

(** The component can start a run: a column is chosen and a key entered. *)
Definition configured : bool :=
  (truthy (Str (State.addressCol c)) || truthy (Str (State.cityCol c))
   || truthy (Str (State.countryCol c)))
  && truthy (Str (State.apiKey c)).

(** The progress reports in a log. *)
Fixpoint reports (l : list event) : list Q :=
  match l with
  | [] => []
  | SetProgress q :: rest => q :: reports rest
  | _ :: rest => reports rest
  end.

(** The delays in a log. *)
Fixpoint delays (l : list event) : list nat :=
  match l with
  | [] => []
  | Timeout ms :: rest => ms :: delays rest
  | _ :: rest => delays rest
  end.

(** A column name that reads as a field of the row or as nothing: the row
    has the field, or the name is not one of [Object.prototype]. *)
Definition plain (row : record) (col : string) : bool :=
  match lookup col row with
  | Some _ => true
  | None => negb (inherited col)
  end.

Definition plain_columns (row : record) : bool :=
  forallb (plain row)
    [State.addressCol c; State.cityCol c; State.countryCol c].

(** The values of the chosen columns in a row, in the order address,
    city, country: the wording of the specification for the query. *)
Definition selected_values (row : record) : list cell :=
  flat_map
    (fun col =>
       if String.eqb col "" then []
       else match lookup col row with
            | Some x => [x]
            | None => []
            end)
    [State.addressCol c; State.cityCol c; State.countryCol c].

Definition location_query (row : record) : string :=
  String.concat ", " (map cell_text (filter cell_truthy (selected_values row))).

End Meaning.

End App.

(** * Sample runs *)

Module Sample.
Import JS App.

(** An engine with V8's wording; numbers print as a placeholder, no sample
    below prints one. *)
Definition engine : JS.engine :=
  {| number_text := fun _ => "0";
     cannot_read := fun v k =>
       ("Cannot read properties of "
        ++ (if match v with Null => true | _ => false end then "null" else "undefined")
        ++ " (reading '" ++ k ++ "')")%string;
     cannot_convert := "Cannot convert object to primitive value";
     member_text := fun name =>
       if String.eqb name "__proto__" then "[object Object]"
       else ("function "
             ++ (if String.eqb name "constructor" then "Object" else name)
             ++ "() { [native code] }")%string |}.

Definition component (f : option File) (key address city country : string)
  : State.t :=
  {| State.file := f; State.apiKey := key; State.addressCol := address;
     State.cityCol := city; State.countryCol := country;
     State.processing := false; State.progress := 0%Q; State.error := "";
     State.results := None; State.geocodedData := None |}.

Definition found (lat lng : float) : value :=
  Obj [("results",
        Arr [Obj [("geometry",
                   Obj [("location", Obj [("lat", Num lat); ("lng", Num lng)])])]]);
       ("status", Str "OK")].

Definition main_street : record :=
  [("addr", Text "1 Main St"); ("city", Text "Springfield")].

Definition blank : record := [("addr", Text ""); ("city", Text "")].

Definition always (r : reply) : service := fun _ _ => r.

(** A service that answers its requests with [l], in turn, and is
    unreachable afterwards. *)
Definition replies (l : list reply) : service :=
  fun k _ => nth k l (NetworkError "Failed to fetch").




Definition odd_status : value := Obj [("status", Obj [("toString", Num 1)])].

Definition no_geometry : value :=
  Obj [("results", Arr [Obj [("place_id", Str "p1")]]); ("status", Str "OK")].

Definition elm_street : record :=
  [("addr", Text "5 Elm St"); ("city", Text "Shelbyville")].

(** A row of a table that has a column [Latitude] already. *)
Definition surveyed : record :=
  [("addr", Text "9 Oak Ave"); ("Latitude", Text "old"); ("city", Text "Ogdenville")].

(** A component ready to run over [data]: key entered, address and city
    columns chosen. *)
Definition ready (data : list record) : State.t :=
  component (Some (Complete data)) "KEY" "addr" "city" "".

Definition table : list record := [main_street; blank; elm_street; surveyed].

(** A line with fewer fields than the header has: the row lacks the
    fields of the other columns, here one named [toString]. *)
Definition short : record := [("addr", Text "1 Main St")].

(** The column chosen for the address is the one the short row lacks. *)
Definition lacking : State.t :=
  component (Some (Complete [short])) "KEY" "toString" "" "".

(** The address column is there, the city column is the one it lacks. *)
Definition half_lacking : State.t :=
  component (Some (Complete [short])) "KEY" "addr" "toString" "".

(** The first request finds a place, the second is refused by the
    service, the third cannot be made. *)
Definition mixed : service :=
  replies [Response (Json (found 1 2));
           Response (Json (Obj [("status", Str "REQUEST_DENIED")]))].

End Sample.

(** * The page around [processFile] *)

Module Page.
Import JS App.

(** ** More of what a run shows *)

(** The URLs requested in a log, oldest first. *)
Fixpoint fetched (l : list event) : list string :=
  match l with
  | [] => []
  | Fetch url :: rest => url :: fetched rest
  | _ :: rest => fetched rest
  end.

(** What escaped an [async] callback in a log. *)
Fixpoint rejections (l : list event) : list exn :=
  match l with
  | [] => []
  | Unhandled e :: rest => e :: rejections rest
  | _ :: rest => rejections rest
  end.

(** The queries of the rows that have one, in the order of the rows. *)
Definition queries (E : engine) (c : State.t) (rows : list record) : list string :=
  flat_map (fun row => match query E c row with
                       | Some q => [q]
                       | None => []
                       end) rows.

(** What [processFile] reads of the component and has no setter for. *)
Definition inputs (u : State.t) : option File * string * (string * string * string) :=
  (State.file u, State.apiKey u,
   (State.addressCol u, State.cityCol u, State.countryCol u)).

(** ** The state of the page *)

(** [headers] is declared an array of names and starts as [[]];
    [handleFileUpload] stores [results.data[0]] in it, which in header mode
    is the first row of the file. *)
Inductive Headers : Type :=
| Names (names : list string)
| FirstRow (first : record).

Record t : Type := {
  core : State.t;
  headers : Headers
}.

(** The [useState] defaults. *)
Definition initial : t :=
  {| core := {| State.file := None; State.apiKey := ""; State.addressCol := "";
                State.cityCol := ""; State.countryCol := "";
                State.processing := false; State.progress := 0%Q;
                State.error := ""; State.results := None;
                State.geocodedData := None |};
     headers := Names [] |}.

(** *** The setters [processFile] does not use *)

Definition with_file (f : File) (u : State.t) : State.t :=
  {| State.file := Some f; State.apiKey := State.apiKey u;
     State.addressCol := State.addressCol u; State.cityCol := State.cityCol u;
     State.countryCol := State.countryCol u;
     State.processing := State.processing u;
     State.progress := State.progress u; State.error := State.error u;
     State.results := State.results u;
     State.geocodedData := State.geocodedData u |}.

Definition with_apiKey (text : string) (u : State.t) : State.t :=
  {| State.file := State.file u; State.apiKey := text;
     State.addressCol := State.addressCol u; State.cityCol := State.cityCol u;
     State.countryCol := State.countryCol u;
     State.processing := State.processing u;
     State.progress := State.progress u; State.error := State.error u;
     State.results := State.results u;
     State.geocodedData := State.geocodedData u |}.

Definition with_addressCol (col : string) (u : State.t) : State.t :=
  {| State.file := State.file u; State.apiKey := State.apiKey u;
     State.addressCol := col; State.cityCol := State.cityCol u;
     State.countryCol := State.countryCol u;
     State.processing := State.processing u;
     State.progress := State.progress u; State.error := State.error u;
     State.results := State.results u;
     State.geocodedData := State.geocodedData u |}.

Definition with_cityCol (col : string) (u : State.t) : State.t :=
  {| State.file := State.file u; State.apiKey := State.apiKey u;
     State.addressCol := State.addressCol u; State.cityCol := col;
     State.countryCol := State.countryCol u;
     State.processing := State.processing u;
     State.progress := State.progress u; State.error := State.error u;
     State.results := State.results u;
     State.geocodedData := State.geocodedData u |}.

Definition with_countryCol (col : string) (u : State.t) : State.t :=
  {| State.file := State.file u; State.apiKey := State.apiKey u;
     State.addressCol := State.addressCol u; State.cityCol := State.cityCol u;
     State.countryCol := col;
     State.processing := State.processing u;
     State.progress := State.progress u; State.error := State.error u;
     State.results := State.results u;
     State.geocodedData := State.geocodedData u |}.

(** [setResults(null)] *)
Definition without_results (u : State.t) : State.t :=
  {| State.file := State.file u; State.apiKey := State.apiKey u;
     State.addressCol := State.addressCol u; State.cityCol := State.cityCol u;
     State.countryCol := State.countryCol u;
     State.processing := State.processing u;
     State.progress := State.progress u; State.error := State.error u;
     State.results := None;
     State.geocodedData := State.geocodedData u |}.

(** [setGeocodedData(null)] *)
Definition without_geocodedData (u : State.t) : State.t :=
  {| State.file := State.file u; State.apiKey := State.apiKey u;
     State.addressCol := State.addressCol u; State.cityCol := State.cityCol u;
     State.countryCol := State.countryCol u;
     State.processing := State.processing u;
     State.progress := State.progress u; State.error := State.error u;
     State.results := State.results u;
     State.geocodedData := None |}.

Definition on_core (f : State.t -> State.t) (p : t) : t :=
  {| core := f (core p); headers := headers p |}.

Definition with_headers (h : Headers) (p : t) : t :=
  {| core := core p; headers := h |}.

(** ** [handleFileUpload]

    [chosen] is [event.target.files?.[0]].  The [complete] callback of this
    [Papa.parse] stores the first row when there is one; there is no
    [error] callback. *)
Definition handleFileUpload (chosen : option File) (p : t) : t :=
  match chosen with
  | None => p
  | Some f =>
      let p' :=
        on_core without_geocodedData
          (on_core without_results
             (on_core (with_error "") (on_core (with_file f) p))) in
      match f with
      | Complete (first :: _) => with_headers (FirstRow first) p'
      | Complete [] => p'
      | Unreadable _ => p'
      end
  end.

(** ** What is rendered *)

(** The block of the three selectors:
    [{headers.length > 0 && (... headers.map(...) ...)}]. *)
Inductive block : Type :=
| Hidden
| Options (values : list string)
| RenderError.

Section Render.

(** Whether a text, read as a number, is above zero: the engine's
    conversion of a string to a number. *)
Variable positive : string -> bool.

(** [headers.length > 0]: the length of the array, or the field [length]
    of the row, which is missing unless the file has such a column. *)
Definition length_positive (h : Headers) : bool :=
  match h with
  | Names names => 0 <? List.length names
  | FirstRow first =>
      match lookup "length" first with
      | Some x => positive (cell_text x)
      | None => false
      end
  end.

(** Each selector offers [""] (None) and the headers; [map] is a method of
    arrays only, and no field of a row can be called. *)
Definition selectors (h : Headers) : block :=
  if length_positive h then
    match h with
    | Names names => Options ("" :: names)
    | FirstRow _ => RenderError
    end
  else Hidden.

(** [disabled={processing || !file}] *)
Definition process_disabled (u : State.t) : bool :=
  State.processing u || match State.file u with
                        | Some _ => false
                        | None => true
                        end.

(** [{geocodedData && (<Button onClick={downloadResults} ...>)}] *)
Definition download_shown (u : State.t) : bool :=
  match State.geocodedData u with
  | Some _ => true
  | None => false
  end.

(** The setters a run of [processFile] calls; between two of them the
    user can act. *)
Inductive run_setter : (State.t -> State.t) -> Prop :=
| sets_processing (b : bool) : run_setter (with_processing b)
| sets_progress (q : Q) : run_setter (with_progress q)
| sets_error (text : string) : run_setter (with_error text)
| sets_results (r : GeocodingResults) : run_setter (with_results r)
| sets_geocodedData (rows : list augmented) : run_setter (with_geocodedData rows).

(** The states the page can be in: what the handlers wired to its
    controls make of the initial state.  A selector acts only when its
    block is rendered, with one of the values it offers. *)
Inductive reachable : t -> Prop :=
| at_first : reachable initial
| after_upload (chosen : option File) (p : t) :
    reachable p -> reachable (handleFileUpload chosen p)
| after_key (text : string) (p : t) :
    reachable p -> reachable (on_core (with_apiKey text) p)
| after_address (values : list string) (v : string) (p : t) :
    reachable p -> selectors (headers p) = Options values -> In v values ->
    reachable (on_core (with_addressCol v) p)
| after_city (values : list string) (v : string) (p : t) :
    reachable p -> selectors (headers p) = Options values -> In v values ->
    reachable (on_core (with_cityCol v) p)
| after_country (values : list string) (v : string) (p : t) :
    reachable p -> selectors (headers p) = Options values -> In v values ->
    reachable (on_core (with_countryCol v) p)
| after_run_setter (f : State.t -> State.t) (p : t) :
    reachable p -> run_setter f -> reachable (on_core f p).

End Render.

(** What holds of every state of the page: no column is chosen, and
    [headers] is the empty array or a row. *)
Definition unselected (p : t) : Prop :=
  State.addressCol (core p) = ""
  /\ State.cityCol (core p) = ""
  /\ State.countryCol (core p) = ""
  /\ (headers p = Names [] \/ exists first, headers p = FirstRow first).

(** ** [downloadResults] *)

Inductive effect : Type :=
| CreateObjectURL (content type : string)
| Click (href download : string)
| RevokeObjectURL (url : string).

Section Download.

(** [Papa.unparse], and the URL the browser hands out for the blob. *)
Variable unparse : list augmented -> string.
Variable object_url : string.

Definition downloadResults (u : State.t) : list effect :=
  match State.geocodedData u with
  | None => []
  | Some rows =>
      let csv := unparse rows in
      [CreateObjectURL csv "text/csv";
       Click object_url "geocoded_data.csv";
       RevokeObjectURL object_url]
  end.

End Download.

End Page.

Import JS App.

(** * The program computes what [after] says *)

Section Refinement.

Variable E : engine.
Variable net : service.
Variable c : State.t.

Lemma bind_inr {A B : Type} (m : M A) (k : A -> M B) (s s' : frame) (a : A) :
  m s = (inr a, s') -> bind m k s = k a s'.
Proof. unfold bind; intros ->; reflexivity. Qed.

Lemma bind_inl {A B : Type} (m : M A) (k : A -> M B) (s s' : frame) (e : exn) :
  m s = (inl e, s') -> bind m k s = (inl e, s').
Proof. unfold bind; intros ->; reflexivity. Qed.

Lemma get_present (v : value) (k : key) (s : frame) :
  nullish v = false -> get E v k s = (inr (property v k), s).
Proof. unfold get; intros ->; reflexivity. Qed.

Lemma get_absent (v : value) (k : key) (s : frame) :
  nullish v = true ->
  get E v k s = (inl (Thrown (cannot_read E v (key_text k))), s).
Proof. unfold get; intros ->; reflexivity. Qed.

Lemma truthy_not_nullish (v : value) : truthy v = true -> nullish v = false.
Proof. destruct v; simpl; congruence. Qed.

Lemma is_string_not_nullish (v : value) (t : string) :
  is_string v t = true -> nullish v = false.
Proof. destruct v; simpl; congruence. Qed.

Lemma geocodeAddress_spec (address : string) (s : frame) :
  let s' := requesting (geocode_url c address) s in
  geocodeAddress E net c address s =
  match net (requests (log s)) (geocode_url c address) with
  | NetworkError text => (inl (Thrown text), s')
  | Response (Malformed text) => (inl (Thrown text), s')
  | Response (Json data) =>
      if nullish data then (inl (Thrown (cannot_read E data "status")), s')
      else if negb (is_string (property data (Name "status")) "OK") then
        match ToString E (property data (Name "status")) with
        | inl e => (inl e, s')
        | inr t => (inl (Thrown ("Geocoding failed: " ++ t)%string), s')
        end
      else (inr data, s')
  end.
Proof.
  intros s'. unfold geocodeAddress.
  change ("https://maps.googleapis.com/maps/api/geocode/json?address="
          ++ encodeURIComponent address ++ "&key=" ++ State.apiKey c)%string
    with (geocode_url c address).
  unfold bind at 1. unfold fetch, emit. fold (requesting (geocode_url c address) s).
  fold s'.
  destruct (net (requests (log s)) (geocode_url c address)) as [text | [text | data]];
    try reflexivity.
  unfold json, get, bind; unfold ret, throw.
  destruct (nullish data); [reflexivity |]. cbv beta iota.
  destruct (negb (is_string (property data (Name "status")) "OK")); [| reflexivity].
  unfold text_of, throw, ret.
  destruct (ToString E (property data (Name "status"))); reflexivity.
Qed.

Lemma geocode_row_spec (i : nat) (parts : list piece) (s : frame) :
  let url := geocode_url c (join E ", " parts) in
  geocode_row E net c i parts s =
  match classify E (net (requests (log s)) url) with
  | Resolved lat lng =>
      (inr tt,
       {| ui := ui s; results := incr_processedRows (results s);
          processed := processed s;
          newRow := assign "Longitude" lng (assign "Latitude" lat (newRow s));
          log := log s ++ [Fetch url] |})
  | Unresolved =>
      (inr tt,
       {| ui := ui s; results := push_skippedRows (i + 1) (results s);
          processed := processed s; newRow := newRow s;
          log := log s ++ [Fetch url] |})
  | Failed text => (inl (Thrown text), requesting url s)
  end.
Proof.
  intros url. unfold geocode_row.
  pose proof (geocodeAddress_spec (join E ", " parts) s) as H.
  cbv zeta in H. fold url in H.
  unfold bind at 1. rewrite H. clear H. unfold classify, first_result.
  destruct (net (requests (log s)) url) as [text | [text | data]];
    try reflexivity.
  destruct (nullish data) eqn:Hdata; [reflexivity |].
  destruct (negb (is_string (property data (Name "status")) "OK")).
  { destruct (ToString E (property data (Name "status"))) as [[text] | t];
      reflexivity. }
  cbv zeta.
  rewrite (bind_inr _ _ _ _ _ (get_present _ (Name "results") _ Hdata)).
  unfold get_optional.
  destruct (nullish (property data (Name "results"))) eqn:Hfound.
  { reflexivity. }
  rewrite (bind_inr _ _ _ _ _ (get_present _ (Index 0) _ Hfound)).
  destruct (truthy (property (property data (Name "results")) (Index 0)))
    eqn:Hfirst; [| reflexivity].
  rewrite (bind_inr _ _ _ _ _ (get_present _ (Name "results") _ Hdata)).
  rewrite (bind_inr _ _ _ _ _ (get_present _ (Index 0) _ Hfound)).
  rewrite (bind_inr _ _ _ _ _
             (get_present _ (Name "geometry") _ (truthy_not_nullish _ Hfirst))).
  destruct (nullish (property (property (property data (Name "results"))
                                 (Index 0)) (Name "geometry"))) eqn:Hgeometry.
  { rewrite (bind_inl _ _ _ _ _ (get_absent _ (Name "location") _ Hgeometry)).
    reflexivity. }
  rewrite (bind_inr _ _ _ _ _ (get_present _ (Name "location") _ Hgeometry)).
  destruct (nullish (property (property (property (property data (Name "results"))
              (Index 0)) (Name "geometry")) (Name "location"))) eqn:Hlocation.
  { rewrite (bind_inl _ _ _ _ _ (get_absent _ (Name "lat") _ Hlocation)).
    reflexivity. }
  rewrite (bind_inr _ _ _ _ _ (get_present _ (Name "lat") _ Hlocation)).
  unfold bind at 1. unfold modify_newRow at 1.
  rewrite (bind_inr _ _ _ _ _ (get_present _ (Name "lng") _ Hlocation)).
  reflexivity.
Qed.

(** One turn of the loop never throws and leaves the frame [after]
    describes. *)
Lemma iteration_after (i n : nat) (row : record) (s : frame) :
  iteration E net c i n row s = (inr tt, after E net c i n row s).
Proof.
  unfold iteration, after, handling, requested, query.
  set (parts := locationParts c row).
  unfold bind at 1. unfold modify_newRow at 1.
  destruct (0 <? List.length parts).
  - unfold bind at 1. unfold try_catch.
    rewrite geocode_row_spec. cbv zeta. cbn [log ui results processed newRow].
    destruct (classify E (net (requests (log s)) (geocode_url c (join E ", " parts))));
      cbv [bind read modify_processed modify_results modify_ui setProgress emit
           record_failure requesting message tally_after row_after];
      cbn [log ui results processed newRow];
      rewrite <- !app_assoc; reflexivity.
  - cbv [bind read modify_processed modify_results modify_ui setProgress emit
         tally_after row_after];
      cbn [log ui results processed newRow];
      rewrite <- !app_assoc; reflexivity.
Qed.

Lemma loop_after (rows : list record) (i n : nat) (s : frame) :
  loop E net c i n rows s = (inr tt, after_all E net c i n rows s).
Proof.
  revert i s; induction rows as [| row rest IH]; intros i s; simpl.
  - reflexivity.
  - rewrite (bind_inr _ _ _ _ _ (iteration_after i n row s)). apply IH.
Qed.

(** A run over a readable file, with a column chosen and a key entered. *)
Lemma run_complete (data : list record) :
  State.file c = Some (Complete data) ->
  configured c = true ->
  run E net c =
  finished (after_all E net c 0 (List.length data) data (begun c (List.length data))).
Proof.
  unfold configured, run, processFile. intros -> H.
  apply andb_prop in H. destruct H as [Hcol Hkey]. rewrite Hkey.
  assert (negb (truthy (Str (State.addressCol c)))
          && negb (truthy (Str (State.cityCol c)))
          && negb (truthy (Str (State.countryCol c))) = false) as ->.
  { destruct (truthy (Str (State.addressCol c))),
             (truthy (Str (State.cityCol c))),
             (truthy (Str (State.countryCol c))); simpl in *; congruence. }
  cbn [negb].
  unfold try_catch, parse, detached, try_catch, complete.
  cbv [bind setProcessing setError setProgress modify_ui modify_results
       modify_processed emit start].
  cbn [log ui results processed newRow app].
  rewrite loop_after.
  cbv [read setResults setGeocodedData setProcessing bind modify_ui emit finished].
  cbn [log ui results processed newRow fst snd].
  rewrite <- !app_assoc. reflexivity.
Qed.

End Refinement.

(** * Logs *)

Lemma requests_app (l l' : list event) :
  requests (l ++ l') = requests l + requests l'.
Proof.
  induction l as [| e l IH]; simpl; [reflexivity |].
  destruct e; simpl; rewrite IH; reflexivity.
Qed.

Lemma reports_app (l l' : list event) : reports (l ++ l') = reports l ++ reports l'.
Proof.
  induction l as [| e l IH]; simpl; [reflexivity |].
  destruct e; simpl; rewrite IH; reflexivity.
Qed.

Lemma delays_app (l l' : list event) : delays (l ++ l') = delays l ++ delays l'.
Proof.
  induction l as [| e l IH]; simpl; [reflexivity |].
  destruct e; simpl; rewrite IH; reflexivity.
Qed.

Section Loop.

Variable E : engine.
Variable net : service.
Variable c : State.t.

Lemma requested_cases (row : record) :
  (query E c row = None /\ requested E c row = [])
  \/ (exists q, query E c row = Some q /\ requested E c row = [Fetch (geocode_url c q)]).
Proof.
  unfold requested. destruct (query E c row) as [q |]; [right | left]; eauto.
Qed.

Lemma requests_requested (row : record) :
  requests (requested E c row) = List.length (requested E c row).
Proof.
  destruct (requested_cases row) as [[_ ->] | [q [_ ->]]]; reflexivity.
Qed.

Lemma reports_requested (row : record) : reports (requested E c row) = [].
Proof.
  destruct (requested_cases row) as [[_ ->] | [q [_ ->]]]; reflexivity.
Qed.

Lemma delays_requested (row : record) : delays (requested E c row) = [].
Proof.
  destruct (requested_cases row) as [[_ ->] | [q [_ ->]]]; reflexivity.
Qed.

Lemma requests_after (i n : nat) (row : record) (s : frame) :
  requests (log (after E net c i n row s))
  = requests (log s) + List.length (requested E c row).
Proof.
  unfold after; cbn [log]. rewrite !requests_app, requests_requested.
  simpl; lia.
Qed.

Lemma handlings_length (rows : list record) (k : nat) :
  List.length (handlings E net c k rows) = List.length rows.
Proof.
  revert k; induction rows as [| row rest IH]; intros k; simpl; auto.
Qed.

Lemma results_after_all (rows : list record) (i n : nat) (s : frame) :
  results (after_all E net c i n rows s)
  = tally_all E c i rows (handlings E net c (requests (log s)) rows) (results s).
Proof.
  revert i s; induction rows as [| row rest IH]; intros i s; simpl;
    [reflexivity |].
  rewrite IH, requests_after. reflexivity.
Qed.

Lemma processed_after_all (rows : list record) (i n : nat) (s : frame) :
  processed (after_all E net c i n rows s)
  = processed s ++ rows_after rows (handlings E net c (requests (log s)) rows).
Proof.
  revert i s; induction rows as [| row rest IH]; intros i s; simpl.
  - unfold rows_after; simpl. rewrite app_nil_r; reflexivity.
  - rewrite IH, requests_after. unfold rows_after; simpl.
    rewrite <- app_assoc. reflexivity.
Qed.

Lemma requests_after_all (rows : list record) (i n : nat) (s : frame) :
  requests (log (after_all E net c i n rows s))
  = requests (log s) + with_query E c rows.
Proof.
  revert i s; induction rows as [| row rest IH]; intros i s; simpl.
  - unfold with_query; simpl; lia.
  - rewrite IH, requests_after. unfold with_query; simpl.
    rewrite length_app. lia.
Qed.

Lemma reports_after_all (rows : list record) (i n : nat) (s : frame) :
  reports (log (after_all E net c i n rows s))
  = reports (log s) ++ map (fun j => percent j n) (seq i (List.length rows)).
Proof.
  revert i s; induction rows as [| row rest IH]; intros i s; simpl.
  - rewrite app_nil_r; reflexivity.
  - rewrite IH. unfold after; cbn [log].
    rewrite !reports_app, reports_requested. simpl.
    rewrite <- app_assoc. simpl. replace (i + 1) with (S i) by lia. reflexivity.
Qed.

Lemma delays_after_all (rows : list record) (i n : nat) (s : frame) :
  delays (log (after_all E net c i n rows s))
  = delays (log s) ++ repeat 200 (List.length rows).
Proof.
  revert i s; induction rows as [| row rest IH]; intros i s; simpl.
  - rewrite app_nil_r; reflexivity.
  - rewrite IH. unfold after; cbn [log].
    rewrite !delays_app, delays_requested. simpl.
    rewrite <- app_assoc. reflexivity.
Qed.

End Loop.

(** * The tally, bucket by bucket *)

Section Tally.

Variable E : engine.
Variable c : State.t.

Lemma tally_all_buckets (rows : list record) (hs : list (option Outcome))
    (i : nat) (r : GeocodingResults) :
  tally_all E c i rows hs r =
  {| totalRows := totalRows r;
     processedRows := processedRows r + resolved_count rows hs;
     skippedRows := skippedRows r ++ skipped_indices i rows hs;
     errors := errors r ++ failures E c i rows hs |}.
Proof.
  revert hs i r; induction rows as [| row rest IH]; intros hs i r.
  - simpl. rewrite Nat.add_0_r, !app_nil_r. destruct r; reflexivity.
  - destruct hs as [| h hs].
    + simpl. rewrite Nat.add_0_r, !app_nil_r. destruct r; reflexivity.
    + simpl. rewrite IH.
      destruct h as [[lat lng | | text] |]; simpl;
        rewrite <- ?app_assoc; simpl; f_equal; lia.
Qed.

Lemma buckets_count (rows : list record) (hs : list (option Outcome)) (i : nat) :
  List.length rows = List.length hs ->
  resolved_count rows hs + List.length (skipped_indices i rows hs)
  = List.length rows.
Proof.
  revert hs i; induction rows as [| row rest IH]; intros [| h hs] i H;
    simpl in *; try discriminate; auto.
  injection H as H. specialize (IH hs (i + 1) H).
  destruct h as [[lat lng | | text] |]; simpl; lia.
Qed.

Lemma skipped_indices_bounds (rows : list record) (hs : list (option Outcome))
    (i x : nat) :
  In x (skipped_indices i rows hs) -> i < x <= i + List.length rows.
Proof.
  revert hs i; induction rows as [| row rest IH]; intros [| h hs] i H;
    simpl in *; try contradiction.
  destruct h as [[lat lng | | text] |]; simpl in H;
    try (destruct H as [<- | H]; [lia |]);
    apply IH in H; lia.
Qed.

Lemma skipped_indices_NoDup (rows : list record) (hs : list (option Outcome))
    (i : nat) :
  NoDup (skipped_indices i rows hs).
Proof.
  revert hs i; induction rows as [| row rest IH]; intros [| h hs] i;
    simpl; try constructor.
  destruct h as [[lat lng | | text] |]; try apply IH;
    (constructor; [| apply IH]);
    intros H; apply skipped_indices_bounds in H; lia.
Qed.

(** Where an entry of [errors] comes from: a failed row, whose index,
    message and query it carries, and whose index is among the skipped. *)
Lemma failures_origin (rows : list record) (hs : list (option Outcome))
    (i : nat) (e : ErrorDetail) :
  In e (failures E c i rows hs) ->
  In (row e) (skipped_indices i rows hs)
  /\ exists j rw,
      row e = i + j + 1
      /\ nth_error rows j = Some rw
      /\ nth_error hs j = Some (Some (Failed (error e)))
      /\ location e = join E ", " (locationParts c rw).
Proof.
  revert hs i; induction rows as [| rw rest IH]; intros [| h hs] i H;
    simpl in *; try contradiction.
  assert (Hrest : In e (failures E c (i + 1) rest hs) ->
                  exists j rw0,
                    row e = i + j + 1
                    /\ nth_error (rw :: rest) j = Some rw0
                    /\ nth_error (h :: hs) j = Some (Some (Failed (error e)))
                    /\ location e = join E ", " (locationParts c rw0)).
  { intros H'. destruct (IH _ _ H') as [_ (j & rw0 & Hrow & Hj & Hh & Hloc)].
    exists (S j), rw0. simpl. repeat split; auto; lia. }
  destruct h as [[lat lng | | text] |]; simpl in *.
  - split; [apply (IH _ _ H) | auto].
  - split; [right; apply (IH _ _ H) | auto].
  - destruct H as [<- | H].
    + split; [left; reflexivity |].
      exists 0, rw. simpl. repeat split; auto; lia.
    + split; [right; apply (IH _ _ H) | auto].
  - split; [right; apply (IH _ _ H) | auto].
Qed.

End Tally.

(** * A completed run *)

Section Completed.

Variable E : engine.
Variable net : service.
Variable c : State.t.
Variable data : list record.

Hypothesis readable : State.file c = Some (Complete data).
Hypothesis ready : configured c = true.

Lemma run_results :
  State.results (ui (run E net c)) =
  Some {| totalRows := List.length data;
          processedRows := resolved_count data (handlings E net c 0 data);
          skippedRows := skipped_indices 0 data (handlings E net c 0 data);
          errors := failures E c 0 data (handlings E net c 0 data) |}.
Proof.
  rewrite (run_complete E net c data readable ready).
  unfold finished; cbn [ui with_processing with_geocodedData with_results State.results].
  rewrite results_after_all, tally_all_buckets. reflexivity.
Qed.

Lemma run_geocodedData :
  State.geocodedData (ui (run E net c)) = Some (rows_after data (handlings E net c 0 data)).
Proof.
  rewrite (run_complete E net c data readable ready).
  unfold finished;
    cbn [ui with_processing with_geocodedData with_results State.geocodedData].
  rewrite processed_after_all. reflexivity.
Qed.

Lemma run_log :
  log (run E net c) =
  log (after_all E net c 0 (List.length data) data (begun c (List.length data)))
    ++ [SetResults {| totalRows := List.length data;
                      processedRows := resolved_count data (handlings E net c 0 data);
                      skippedRows := skipped_indices 0 data (handlings E net c 0 data);
                      errors := failures E c 0 data (handlings E net c 0 data) |};
        SetGeocodedData (rows_after data (handlings E net c 0 data));
        SetProcessing false].
Proof.
  rewrite (run_complete E net c data readable ready).
  unfold finished; cbn [log].
  rewrite results_after_all, tally_all_buckets, processed_after_all. reflexivity.
Qed.

End Completed.

Lemma rows_after_length (rows : list record) (hs : list (option Outcome)) :
  List.length hs = List.length rows ->
  List.length (rows_after rows hs) = List.length rows.
Proof.
  intros H. unfold rows_after. rewrite length_map, length_combine. lia.
Qed.

Lemma rows_after_nth (rows : list record) (hs : list (option Outcome))
    (j : nat) (rw : record) :
  List.length hs = List.length rows ->
  nth_error rows j = Some rw ->
  exists h, nth_error hs j = Some h
            /\ nth_error (rows_after rows hs) j = Some (row_after rw h).
Proof.
  revert hs j; induction rows as [| r rest IH]; intros [| h hs] j Hlen Hj;
    simpl in *; try discriminate; try (destruct j; discriminate).
  destruct j as [| j]; simpl in *.
  - injection Hj as <-. exists h. split; reflexivity.
  - injection Hlen as Hlen. apply (IH hs j Hlen Hj).
Qed.

(** The row at position [j] is handled after as many requests as rows
    before it have a query. *)
Lemma handlings_nth (E : engine) (net : service) (c : State.t)
    (rows : list record) (k j : nat) (rw : record) :
  nth_error rows j = Some rw ->
  nth_error (handlings E net c k rows) j
  = Some (handling E net c (k + with_query E c (firstn j rows)) rw).
Proof.
  revert k j; induction rows as [| r rest IH]; intros k j Hj.
  - destruct j; discriminate.
  - destruct j as [| j]; simpl in *.
    + injection Hj as <-. unfold with_query; simpl. rewrite Nat.add_0_r. reflexivity.
    + rewrite (IH _ _ Hj). unfold with_query; simpl. rewrite length_app.
      rewrite Nat.add_assoc. reflexivity.
Qed.

Lemma handling_query (E : engine) (net : service) (c : State.t)
    (k : nat) (rw : record) (o : Outcome) :
  handling E net c k rw = Some o ->
  query E c rw = Some (join E ", " (locationParts c rw)).
Proof.
  unfold handling, query.
  destruct (0 <? List.length (locationParts c rw)); [reflexivity | discriminate].
Qed.

(** ** Guards *)

Lemma unconfigured_refusal (c : State.t) :
  configured c = false -> exists text, refusal c = Some text.
Proof.
  unfold configured, refusal. intros H.
  destruct (State.file c); [| eauto].
  destruct (truthy (Str (State.addressCol c))),
           (truthy (Str (State.cityCol c))),
           (truthy (Str (State.countryCol c))),
           (truthy (Str (State.apiKey c))); simpl in *; eauto; discriminate.
Qed.

Lemma run_refused (E : engine) (net : service) (c : State.t) (text : string) :
  refusal c = Some text ->
  run E net c =
  {| ui := with_error text c; results := results (start c);
     processed := []; newRow := []; log := [SetError text] |}.
Proof.
  unfold refusal, run, processFile.
  destruct (State.file c).
  - destruct (negb (truthy (Str (State.addressCol c)))
              && negb (truthy (Str (State.cityCol c)))
              && negb (truthy (Str (State.countryCol c)))).
    + intros [= <-]. reflexivity.
    + destruct (negb (truthy (Str (State.apiKey c)))).
      * intros [= <-]. reflexivity.
      * discriminate.
  - intros [= <-]. reflexivity.
Qed.

(** ** Queries *)

Lemma part_plain (col : string) (row : record) :
  plain row col = true ->
  part col row
  = map Field
      (filter cell_truthy
         (if String.eqb col "" then []
          else match lookup col row with
               | Some x => [x]
               | None => []
               end)).
Proof.
  unfold plain, part, at_key. simpl.
  destruct (String.eqb col ""); simpl; [reflexivity |].
  destruct (lookup col row) as [x |]; simpl.
  - intros _. destruct (cell_truthy x); reflexivity.
  - intros H. apply negb_true_iff in H. rewrite H. reflexivity.
Qed.

(** For plain column names the parts of the query are the chosen fields
    that are not empty. *)
Lemma locationParts_selected (c : State.t) (row : record) :
  plain_columns c row = true ->
  locationParts c row = map Field (filter cell_truthy (selected_values c row)).
Proof.
  unfold plain_columns, locationParts, selected_values. simpl.
  rewrite !andb_true_iff. intros (Ha & Hb & Hc & _).
  rewrite (part_plain _ _ Ha), (part_plain _ _ Hb), (part_plain _ _ Hc).
  rewrite app_nil_r, !filter_app, !map_app. reflexivity.
Qed.

Lemma join_fields (E : engine) (sep : string) (l : list cell) :
  join E sep (map Field l) = String.concat sep (map cell_text l).
Proof. unfold join. rewrite map_map. reflexivity. Qed.

Lemma query_some (E : engine) (c : State.t) (row : record) :
  locationParts c row <> [] ->
  query E c row = Some (join E ", " (locationParts c row)).
Proof.
  unfold query. destruct (locationParts c row); [congruence | reflexivity].
Qed.

Lemma query_none (E : engine) (c : State.t) (row : record) :
  locationParts c row = [] -> query E c row = None.
Proof. unfold query. intros ->. reflexivity. Qed.

Lemma part_blank (col : string) (row : record) :
  col = ""
  \/ (lookup col row = None /\ inherited col = false)
  \/ lookup col row = Some (Text "") ->
  part col row = [].
Proof.
  unfold part, at_key. intros [-> | [[-> ->] | ->]]; try reflexivity.
  - destruct (truthy (Str col)); reflexivity.
  - destruct (truthy (Str col)); reflexivity.
Qed.

(** ** Assignment to a property *)

Lemma lookup_assign_same {A : Type} (k : string) (v : A) (props : list (string * A)) :
  lookup k (assign k v props) = Some v.
Proof.
  induction props as [| [k' v'] rest IH]; simpl.
  - rewrite String.eqb_refl. reflexivity.
  - destruct (String.eqb k' k) eqn:Hk; simpl; rewrite Hk; auto.
Qed.

Lemma lookup_assign_other {A : Type} (k k0 : string) (v : A)
    (props : list (string * A)) :
  k0 <> k -> lookup k0 (assign k v props) = lookup k0 props.
Proof.
  intros Hne. induction props as [| [k' v'] rest IH]; simpl.
  - destruct (String.eqb k k0) eqn:Hk; [| reflexivity].
    apply String.eqb_eq in Hk. congruence.
  - destruct (String.eqb k' k) eqn:Hk; simpl.
    + apply String.eqb_eq in Hk. subst k'.
      destruct (String.eqb k k0) eqn:Hk0; [| reflexivity].
      apply String.eqb_eq in Hk0. congruence.
    + rewrite IH. reflexivity.
Qed.

Lemma keys_assign {A : Type} (k : string) (v : A) (props : list (string * A)) :
  keys (assign k v props)
  = if existsb (fun k' => String.eqb k' k) (keys props) then keys props
    else keys props ++ [k].
Proof.
  unfold keys. induction props as [| [k' v'] rest IH]; simpl; [reflexivity |].
  destruct (String.eqb k' k); simpl; [reflexivity |].
  rewrite IH. destruct (existsb _ _); reflexivity.
Qed.

(** ** Classification of a reply *)








Lemma is_string_true (v : value) (text : string) :
  is_string v text = true -> v = Str text.
Proof.
  destruct v; simpl; try discriminate.
  intros H. apply String.eqb_eq in H. congruence.
Qed.




(** ** Copies of a row *)

Lemma lookup_spread (k : string) (row : record) :
  lookup k (spread row) = option_map cell_value (lookup k row).
Proof.
  induction row as [| [k' x] rest IH]; simpl; [reflexivity |].
  destruct (String.eqb k' k); [reflexivity | exact IH].
Qed.

Lemma keys_spread (row : record) : keys (spread row) = keys row.
Proof.
  unfold keys, spread. rewrite map_map. reflexivity.
Qed.

Lemma keys_assign_prefix {A : Type} (k : string) (v : A)
    (props : list (string * A)) :
  firstn (List.length (keys props)) (keys (assign k v props)) = keys props.
Proof.
  rewrite keys_assign.
  destruct (existsb (fun k' => String.eqb k' k) (keys props)).
  - apply firstn_all.
  - rewrite firstn_app, firstn_all, Nat.sub_diag. simpl. apply app_nil_r.
Qed.

Lemma keys_assign_length {A : Type} (k : string) (v : A)
    (props : list (string * A)) :
  List.length (keys props) <= List.length (keys (assign k v props)).
Proof.
  rewrite keys_assign.
  destruct (existsb (fun k' => String.eqb k' k) (keys props));
    rewrite ?length_app; lia.
Qed.

(** What every output row keeps of the input row: its fields, in their
    order, and the value of each but [Latitude] and [Longitude]. *)
Lemma row_after_keeps (rw : record) (h : option Outcome) :
  (forall k, k <> "Latitude" -> k <> "Longitude" ->
             lookup k (row_after rw h) = option_map cell_value (lookup k rw))
  /\ firstn (List.length rw) (keys (row_after rw h)) = keys rw.
Proof.
  assert (Hlen : List.length rw = List.length (keys (spread rw))).
  { rewrite keys_spread. unfold keys. rewrite length_map. reflexivity. }
  destruct h as [[lat lng | | text] |]; simpl;
    try (split; [intros k _ _; apply lookup_spread
                | rewrite Hlen, firstn_all; apply keys_spread]).
  split.
  - intros k Hlat Hlng. rewrite !lookup_assign_other by assumption.
    apply lookup_spread.
  - pose proof (keys_assign_length "Latitude" lat (spread rw)) as Hle.
    rewrite Hlen.
    replace (List.length (keys (spread rw)))
      with (Nat.min (List.length (keys (spread rw)))
              (List.length (keys (assign "Latitude" lat (spread rw)))))
      at 1 by lia.
    rewrite <- firstn_firstn, keys_assign_prefix, keys_assign_prefix.
    apply keys_spread.
Qed.

(** ** Doubles *)

Section Doubles.

Local Open Scope Q_scope.

Lemma pow2_pos (z : Z) : 0 < pow2 z.
Proof. apply Qpower_0_lt. reflexivity. Qed.

Lemma pow2_plus (a b : Z) : pow2 (a + b) == pow2 a * pow2 b.
Proof. apply Qpower_plus. discriminate. Qed.

Lemma pow2_lt (a b : Z) : (a < b)%Z -> pow2 a < pow2 b.
Proof. intros H. apply Qpower_lt_compat_l; [exact H | reflexivity]. Qed.

Lemma pow2_le (a b : Z) : (a <= b)%Z -> pow2 a <= pow2 b.
Proof. intros H. apply Qpower_le_compat_l; [exact H | discriminate]. Qed.

Lemma pow2_lt_inv (a b : Z) : pow2 a < pow2 b -> (a < b)%Z.
Proof. intros H. apply (Qpower_lt_compat_l_inv 2); [exact H | reflexivity]. Qed.

Lemma pow2_cancel (a : Z) : pow2 a * pow2 (- a) == 1.
Proof. rewrite <- pow2_plus, Z.add_opp_diag_r. reflexivity. Qed.

Lemma pow2_Z (a : Z) : (0 <= a)%Z -> pow2 a == inject_Z (2 ^ a).
Proof. intros H. unfold pow2. rewrite Zpower_Qpower by exact H. reflexivity. Qed.

(** The ratio of two positive integers against that of their leading
    powers of two. *)
Lemma ratio_bounds (a b : Z) :
  (0 < a)%Z -> (0 < b)%Z ->
  pow2 (Z.log2 a - Z.log2 b - 1) <= inject_Z a / inject_Z b
  /\ inject_Z a / inject_Z b < pow2 (Z.log2 a - Z.log2 b + 1).
Proof.
  intros Ha Hb.
  destruct (Z.log2_spec a Ha) as [Ha1 Ha2].
  destruct (Z.log2_spec b Hb) as [Hb1 Hb2].
  pose proof (Z.log2_nonneg a) as Hla. pose proof (Z.log2_nonneg b) as Hlb.
  assert (Hbpos : 0 < inject_Z b) by (unfold Qlt; simpl; lia).
  split.
  - apply Qle_shift_div_l; [exact Hbpos |].
    apply Qle_trans with (pow2 (Z.log2 a - Z.log2 b - 1) * pow2 (Z.succ (Z.log2 b))).
    + apply Qmult_le_l; [apply pow2_pos |].
      rewrite pow2_Z by lia. rewrite <- Zle_Qle. lia.
    + rewrite <- pow2_plus.
      replace (Z.log2 a - Z.log2 b - 1 + Z.succ (Z.log2 b))%Z with (Z.log2 a) by lia.
      rewrite pow2_Z by lia. rewrite <- Zle_Qle. exact Ha1.
  - apply Qlt_shift_div_r; [exact Hbpos |].
    apply Qlt_le_trans with (pow2 (Z.succ (Z.log2 a))).
    + rewrite pow2_Z by lia. rewrite <- Zlt_Qlt. exact Ha2.
    + replace (Z.succ (Z.log2 a)) with (Z.log2 a - Z.log2 b + 1 + Z.log2 b)%Z by lia.
      rewrite pow2_plus. apply Qmult_le_l; [apply pow2_pos |].
      rewrite pow2_Z by lia. rewrite <- Zle_Qle. exact Hb1.
Qed.

Lemma ilog2_spec (x : Q) :
  0 < x -> pow2 (ilog2 x) <= x /\ x < pow2 (ilog2 x + 1).
Proof.
  intros Hx. unfold ilog2.
  assert (Ha : (0 < Qnum x)%Z).
  { unfold Qlt in Hx. simpl in Hx. lia. }
  destruct (ratio_bounds (Qnum x) (Zpos (Qden x)) Ha eq_refl) as [Hlow Hhigh].
  rewrite <- Qmake_Qdiv in Hlow, Hhigh.
  assert (Hxx : Qnum x # Qden x == x) by (destruct x; reflexivity).
  rewrite Hxx in Hlow, Hhigh.
  destruct (Qle_bool (pow2 (Z.log2 (Qnum x) - Z.log2 (Z.pos (Qden x)))) x) eqn:Hb.
  - apply Qle_bool_iff in Hb. split; assumption.
  - split; [exact Hlow |].
    replace (Z.log2 (Qnum x) - Z.log2 (Z.pos (Qden x)) - 1 + 1)%Z
      with (Z.log2 (Qnum x) - Z.log2 (Z.pos (Qden x)))%Z by lia.
    apply Qnot_le_lt. intros H. apply Qle_bool_iff in H. congruence.
Qed.

Lemma ilog2_unique (x : Q) (e : Z) :
  pow2 e <= x -> x < pow2 (e + 1) -> ilog2 x = e.
Proof.
  intros Hlow Hhigh.
  assert (Hx : 0 < x) by (apply Qlt_le_trans with (pow2 e); [apply pow2_pos | exact Hlow]).
  destruct (ilog2_spec x Hx) as [Hlow' Hhigh'].
  assert (e < ilog2 x + 1)%Z.
  { apply pow2_lt_inv. apply Qle_lt_trans with x; assumption. }
  assert (ilog2 x < e + 1)%Z.
  { apply pow2_lt_inv. apply Qle_lt_trans with x; assumption. }
  lia.
Qed.

Lemma rne_error (q : Q) :
  inject_Z (rne q) - q <= 1 # 2 /\ q - inject_Z (rne q) <= 1 # 2.
Proof.
  unfold rne.
  pose proof (Qfloor_le q) as Hlow. pose proof (Qlt_floor q) as Hhigh.
  rewrite inject_Z_plus in Hhigh. change (inject_Z 1) with 1 in Hhigh.
  destruct (Qcompare (q - inject_Z (Qfloor q)) (1 # 2)) eqn:Hc.
  - apply Qeq_alt in Hc. destruct (Z.even (Qfloor q));
      rewrite ?inject_Z_plus; change (inject_Z 1) with 1; split; lra.
  - apply Qlt_alt in Hc. split; lra.
  - apply Qgt_alt in Hc. rewrite inject_Z_plus. change (inject_Z 1) with 1.
    split; lra.
Qed.

Lemma rne_exact (q : Q) (z : Z) : q == inject_Z z -> rne q = z.
Proof.
  intros H. unfold rne.
  assert (Hf : Qfloor q = z) by (rewrite (Qfloor_comp _ _ H); apply Qfloor_Z).
  rewrite Hf.
  assert (Hc : Qcompare (q - inject_Z z) (1 # 2) = Lt).
  { apply Qlt_alt. rewrite H.
    setoid_replace (inject_Z z - inject_Z z) with 0 by ring. reflexivity. }
  rewrite Hc. reflexivity.
Qed.

Lemma nearest_error (x : Q) :
  0 < x -> (-1022 <= ilog2 x)%Z ->
  nearest x - x <= pow2 (ilog2 x - 53) /\ x - nearest x <= pow2 (ilog2 x - 53).
Proof.
  intros Hx He. unfold nearest. rewrite Z.max_l by lia. rewrite Qred_correct.
  set (s := (52 - ilog2 x)%Z).
  destruct (rne_error (x * pow2 s)) as [Hup Hdown].
  set (m := inject_Z (rne (x * pow2 s))) in *.
  assert (Hhalf : (1 # 2) * pow2 (- s) == pow2 (ilog2 x - 53)).
  { replace (ilog2 x - 53)%Z with (-1 + - s)%Z by (unfold s; lia).
    rewrite pow2_plus. reflexivity. }
  assert (Hback : x * pow2 s * pow2 (- s) == x).
  { rewrite <- Qmult_assoc, pow2_cancel. ring. }
  pose proof (pow2_pos (- s)) as Hpos.
  rewrite <- Hhalf. split.
  - apply (Qmult_le_r _ _ (pow2 (- s)) Hpos) in Hup.
    setoid_replace ((m - x * pow2 s) * pow2 (- s))
      with (m * pow2 (- s) - x * pow2 s * pow2 (- s)) in Hup by ring.
    rewrite Hback in Hup. exact Hup.
  - apply (Qmult_le_r _ _ (pow2 (- s)) Hpos) in Hdown.
    setoid_replace ((x * pow2 s - m) * pow2 (- s))
      with (x * pow2 s * pow2 (- s) - m * pow2 (- s)) in Hdown by ring.
    rewrite Hback in Hdown. exact Hdown.
Qed.

Lemma nearest_exact (x : Q) (e z : Z) :
  pow2 e <= x -> x < pow2 (e + 1) -> (-1022 <= e)%Z ->
  x * pow2 (52 - e) == inject_Z z ->
  nearest x == x.
Proof.
  intros Hlow Hhigh He Hz. unfold nearest.
  rewrite (ilog2_unique x e Hlow Hhigh), Z.max_l by lia.
  rewrite Qred_correct, (rne_exact _ z Hz), <- Hz.
  rewrite <- Qmult_assoc, pow2_cancel. ring.
Qed.

Lemma to_double_pos (x : Q) : 0 < x -> to_double x = nearest x.
Proof.
  intros Hx. unfold to_double.
  assert (Hc : Qcompare x 0 = Gt) by (apply Qgt_alt; exact Hx).
  rewrite Hc. reflexivity.
Qed.

(** ** Shares of a total *)

Lemma pow2_32 : pow2 (-32) == 1 # 4294967296.
Proof. reflexivity. Qed.

Lemma total_small (n : nat) :
  0 < inject_Z (Z.of_nat n) -> (Z.of_nat n <= 2 ^ 32)%Z ->
  pow2 (-32) * inject_Z (Z.of_nat n) <= 1.
Proof.
  intros Hpos Hn. rewrite pow2_32.
  apply Qle_trans with ((1 # 4294967296) * inject_Z (2 ^ 32)).
  - apply Qmult_le_l; [reflexivity |]. rewrite <- Zle_Qle. exact Hn.
  - discriminate.
Qed.

Lemma share_gap (k k' n : nat) :
  (k < k')%nat -> (0 < n)%nat -> (Z.of_nat n <= 2 ^ 32)%Z ->
  pow2 (-32) <= share k' n - share k n.
Proof.
  intros Hk Hn Hmax. unfold share.
  assert (Hpos : 0 < inject_Z (Z.of_nat n)) by (unfold Qlt; simpl; lia).
  setoid_replace (inject_Z (Z.of_nat k') / inject_Z (Z.of_nat n)
                  - inject_Z (Z.of_nat k) / inject_Z (Z.of_nat n))
    with ((inject_Z (Z.of_nat k') - inject_Z (Z.of_nat k)) / inject_Z (Z.of_nat n))
    by (field; intros H; rewrite H in Hpos; discriminate).
  apply Qle_shift_div_l; [exact Hpos |].
  apply Qle_trans with 1; [apply total_small; assumption |].
  unfold Qminus. rewrite <- inject_Z_opp, <- inject_Z_plus.
  change 1 with (inject_Z 1). rewrite <- Zle_Qle. lia.
Qed.

Lemma share_zero (n : nat) : share 0 n == 0.
Proof. unfold share. simpl. reflexivity. Qed.

Lemma share_full (n : nat) : (0 < n)%nat -> share n n == 1.
Proof.
  intros Hn. unfold share. field. intros H.
  assert (Hpos : 0 < inject_Z (Z.of_nat n)) by (unfold Qlt; simpl; lia).
  rewrite H in Hpos. discriminate.
Qed.

Lemma share_low (k n : nat) :
  (0 < k)%nat -> (0 < n)%nat -> (Z.of_nat n <= 2 ^ 32)%Z -> pow2 (-32) <= share k n.
Proof.
  intros Hk Hn Hmax. pose proof (share_gap 0 k n Hk Hn Hmax) as H.
  rewrite share_zero in H. lra.
Qed.

Lemma share_high (k n : nat) :
  (k < n)%nat -> (Z.of_nat n <= 2 ^ 32)%Z -> share k n <= 1 - pow2 (-32).
Proof.
  intros Hk Hmax. assert (Hn : (0 < n)%nat) by lia.
  pose proof (share_gap k n n Hk Hn Hmax) as H.
  rewrite share_full in H by exact Hn. lra.
Qed.

(** ** The two roundings of a progress report *)

Lemma pow2_54 : pow2 (-54) == 1 # 18014398509481984.
Proof. reflexivity. Qed.

Lemma pow2_47 : pow2 (-47) == 1 # 140737488355328.
Proof. reflexivity. Qed.

Lemma below_pow2 (x : Q) (e : Z) : 0 < x -> x < pow2 e -> (ilog2 x < e)%Z.
Proof.
  intros Hx H. destruct (ilog2_spec x Hx) as [Hlow _].
  apply pow2_lt_inv. apply Qle_lt_trans with x; assumption.
Qed.

Lemma above_pow2 (x : Q) (e : Z) : pow2 e <= x -> (e <= ilog2 x)%Z.
Proof.
  intros H.
  assert (Hx : 0 < x) by (apply Qlt_le_trans with (pow2 e); [apply pow2_pos | exact H]).
  destruct (ilog2_spec x Hx) as [_ Hhigh].
  assert (e < ilog2 x + 1)%Z; [| lia].
  apply pow2_lt_inv. apply Qle_lt_trans with x; assumption.
Qed.

(** Between two powers of two a double is within half a unit in the last
    place of the number it approximates. *)
Lemma to_double_error (x : Q) (low high : Z) :
  pow2 low <= x -> x < pow2 high -> (-1022 <= low)%Z ->
  to_double x - x <= pow2 (high - 54) /\ x - to_double x <= pow2 (high - 54).
Proof.
  intros Hlow Hhigh Hmin.
  assert (Hx : 0 < x) by (apply Qlt_le_trans with (pow2 low); [apply pow2_pos | exact Hlow]).
  rewrite (to_double_pos x Hx).
  pose proof (below_pow2 x high Hx Hhigh) as He.
  pose proof (above_pow2 x low Hlow) as He'.
  destruct (nearest_error x Hx ltac:(lia)) as [Hup Hdown].
  assert (Hle : pow2 (ilog2 x - 53) <= pow2 (high - 54)) by (apply pow2_le; lia).
  split; lra.
Qed.

Lemma to_double_exact (x : Q) (e z : Z) :
  pow2 e <= x -> x < pow2 (e + 1) -> (-1022 <= e)%Z ->
  x * pow2 (52 - e) == inject_Z z ->
  to_double x == x.
Proof.
  intros Hlow Hhigh He Hz.
  assert (Hx : 0 < x) by (apply Qlt_le_trans with (pow2 e); [apply pow2_pos | exact Hlow]).
  rewrite (to_double_pos x Hx). apply (nearest_exact x e z); assumption.
Qed.

Lemma to_double_1 (x : Q) : x == 1 -> to_double x == 1.
Proof.
  intros H. apply Qeq_trans with x; [| exact H].
  apply (to_double_exact x 0 (2 ^ 52)).
  - rewrite H. discriminate.
  - rewrite H. reflexivity.
  - lia.
  - rewrite H. reflexivity.
Qed.

Lemma to_double_100 (x : Q) : x == 100 -> to_double x == 100.
Proof.
  intros H. apply Qeq_trans with x; [| exact H].
  apply (to_double_exact x 6 (100 * 2 ^ 46)).
  - rewrite H. discriminate.
  - rewrite H. reflexivity.
  - lia.
  - rewrite H. reflexivity.
Qed.

(** The quotient, rounded: within 2^-54 of the share. *)
Lemma divide_error (k n : nat) :
  (0 < k <= n)%nat -> (Z.of_nat n <= 2 ^ 32)%Z ->
  let a := divide (inject_Z (Z.of_nat k)) (inject_Z (Z.of_nat n)) in
  a - share k n <= pow2 (-54) /\ share k n - a <= pow2 (-54).
Proof.
  intros [Hk Hkn] Hmax a. subst a. unfold divide. fold (share k n).
  assert (Hn : (0 < n)%nat) by lia.
  pose proof (share_low k n Hk Hn Hmax) as Hlow.
  destruct (Nat.eq_dec k n) as [-> | Hne].
  - pose proof (to_double_1 (share n n) (share_full n Hn)) as H1.
    pose proof (share_full n Hn) as H2. pose proof pow2_54. split; lra.
  - pose proof (share_high k n ltac:(lia) Hmax) as Hhigh.
    apply (to_double_error (share k n) (-32) 0); [exact Hlow | | lia].
    pose proof pow2_32. change (pow2 0) with 1. lra.
Qed.

Lemma percent_error (i n : nat) :
  (i < n)%nat -> (Z.of_nat n <= 2 ^ 32)%Z ->
  percent i n - 100 * share (i + 1) n <= 100 * pow2 (-54) + pow2 (-47)
  /\ 100 * share (i + 1) n - percent i n <= 100 * pow2 (-54) + pow2 (-47).
Proof.
  intros Hi Hmax. unfold percent, multiply.
  destruct (divide_error (i + 1) n ltac:(lia) Hmax) as [Hup Hdown].
  set (a := divide (inject_Z (Z.of_nat (i + 1))) (inject_Z (Z.of_nat n))) in *.
  pose proof (share_low (i + 1) n ltac:(lia) ltac:(lia) Hmax) as Hlow.
  assert (Hone : share (i + 1) n <= 1).
  { destruct (Nat.eq_dec (i + 1) n) as [<- | Hne].
    - rewrite share_full by lia. discriminate.
    - pose proof (share_high (i + 1) n ltac:(lia) Hmax). pose proof pow2_32. lra. }
  pose proof pow2_32. pose proof pow2_54. pose proof pow2_47.
  assert (Hpow : pow2 (-33) == 1 # 8589934592) by reflexivity.
  destruct (to_double_error (a * 100) (-33) 7) as [Hup' Hdown'].
  - lra.
  - change (pow2 7) with 128. lra.
  - lia.
  - change (7 - 54)%Z with (-47)%Z in *. split; lra.
Qed.

Lemma percent_lt (n i j : nat) :
  (Z.of_nat n <= 2 ^ 32)%Z -> (i < j)%nat -> (j < n)%nat -> percent i n < percent j n.
Proof.
  intros Hmax Hij Hj.
  destruct (percent_error i n ltac:(lia) Hmax) as [Hi1 Hi2].
  destruct (percent_error j n Hj Hmax) as [Hj1 Hj2].
  pose proof (share_gap (i + 1) (j + 1) n ltac:(lia) ltac:(lia) Hmax) as Hgap.
  pose proof pow2_32. pose proof pow2_54. pose proof pow2_47. lra.
Qed.

Lemma percent_pos (n i : nat) :
  (Z.of_nat n <= 2 ^ 32)%Z -> (i < n)%nat -> 0 < percent i n.
Proof.
  intros Hmax Hi.
  destruct (percent_error i n Hi Hmax) as [Hi1 Hi2].
  pose proof (share_low (i + 1) n ltac:(lia) ltac:(lia) Hmax) as Hlow.
  pose proof pow2_32. pose proof pow2_54. pose proof pow2_47. lra.
Qed.

Lemma percent_last (n i : nat) : (i + 1 = n)%nat -> percent i n == 100.
Proof.
  intros <-. unfold percent, multiply, divide. fold (share (i + 1) (i + 1)).
  apply to_double_100.
  rewrite (to_double_1 _ (share_full (i + 1) ltac:(lia))). reflexivity.
Qed.

Lemma percent_full (n i : nat) :
  (Z.of_nat n <= 2 ^ 32)%Z -> (i < n)%nat -> percent i n == 100 <-> (i + 1 = n)%nat.
Proof.
  intros Hmax Hi. split; [| apply percent_last].
  intros H. destruct (Nat.eq_dec (i + 1) n) as [Heq | Hne]; [exact Heq |].
  exfalso.
  destruct (percent_error i n Hi Hmax) as [Hi1 Hi2].
  pose proof (share_high (i + 1) n ltac:(lia) Hmax) as Hhigh.
  pose proof pow2_32. pose proof pow2_54. pose proof pow2_47. lra.
Qed.

Lemma percents_sorted (n len a : nat) :
  (Z.of_nat n <= 2 ^ 32)%Z -> (a + len <= n)%nat ->
  StronglySorted Qlt (map (fun i => percent i n) (seq a len)).
Proof.
  intros Hmax. revert a; induction len as [| len IH]; intros a Ha; simpl.
  - constructor.
  - constructor; [apply IH; lia |].
    apply Forall_forall. intros q Hq. apply in_map_iff in Hq.
    destruct Hq as [j [<- Hj]]. apply in_seq in Hj.
    apply percent_lt; [exact Hmax | lia | lia].
Qed.

(** On tables of up to 128 rows the reports are, bit for bit, what the
    doubles of the machine give. *)
Lemma percent_agrees_with_the_machine (i n : nat) :
  (i < n)%nat -> (n <= 128)%nat ->
  exists q, double_value (float_percent i n) = Some q /\ q == percent i n.
Proof.
  intros Hi Hn.
  assert (Hall : forallb agree (seq 1 128) = true) by (vm_compute; reflexivity).
  rewrite forallb_forall in Hall.
  assert (Hagree : agree n = true) by (apply Hall, in_seq; lia).
  unfold agree in Hagree. rewrite forallb_forall in Hagree.
  specialize (Hagree i ltac:(apply in_seq; lia)).
  destruct (double_value (float_percent i n)) as [q |]; [| discriminate].
  exists q. split; [reflexivity |]. apply Qeq_bool_iff. exact Hagree.
Qed.

End Doubles.

(** * The claims *)

(** C1.  In the tally a completed run publishes, [processedRows] plus the
    number of [skippedRows] is [totalRows], the number of rows: a resolved
    row adds one to [processedRows], every other row (no query, unresolved,
    failed) puts its 1-based index once in [skippedRows]. *)
Theorem tally_counts_every_row_once
    (E : engine) (net : service) (c : State.t) (data : list record) :
  State.file c = Some (Complete data) ->
  configured c = true ->
  exists r,
    State.results (ui (run E net c)) = Some r
    /\ totalRows r = List.length data
    /\ processedRows r + List.length (skippedRows r) = totalRows r
    /\ processedRows r = resolved_count data (handlings E net c 0 data)
    /\ skippedRows r = skipped_indices 0 data (handlings E net c 0 data)
    /\ NoDup (skippedRows r).
Proof.
  intros Hfile Hready. eexists. split; [apply (run_results E net c data Hfile Hready) |].
  cbn [totalRows processedRows skippedRows].
  repeat split.
  - apply buckets_count. symmetry. apply handlings_length.
  - apply skipped_indices_NoDup.
Qed.

(** C2.  The output of a completed run has as many rows as the input, and
    its row at each position is made from the input row at that position:
    a copy of it, with [Latitude] and [Longitude] assigned when the row was
    resolved.  So it has the fields of the input row first and in their
    order, and every field but [Latitude] and [Longitude] with the value
    the input row has. *)
Theorem output_follows_input
    (E : engine) (net : service) (c : State.t) (data : list record) :
  State.file c = Some (Complete data) ->
  configured c = true ->
  exists out,
    State.geocodedData (ui (run E net c)) = Some out
    /\ List.length out = List.length data
    /\ forall j rw,
        nth_error data j = Some rw ->
        exists o,
          nth_error out j = Some o
          /\ (o = spread rw
              \/ exists lat lng,
                  o = assign "Longitude" lng (assign "Latitude" lat (spread rw)))
          /\ (forall k, k <> "Latitude" -> k <> "Longitude" ->
                        lookup k o = option_map cell_value (lookup k rw))
          /\ firstn (List.length rw) (keys o) = keys rw.
Proof.
  intros Hfile Hready. eexists. split; [apply (run_geocodedData E net c data Hfile Hready) |].
  split.
  - apply rows_after_length, handlings_length.
  - intros j rw Hj.
    destruct (rows_after_nth data (handlings E net c 0 data) j rw
                (handlings_length E net c data 0) Hj) as [h [_ Hout]].
    exists (row_after rw h). split; [exact Hout |].
    split; [| exact (row_after_keeps rw h)].
    destruct h as [[lat lng | | text] |]; simpl; eauto.
Qed.

(** C4.  In the tally of a completed run every entry of [errors] comes
    from a failed row: it carries the 1-based index of that row, the
    message of the failure and the query of the row, and its index is in
    [skippedRows], exactly once. *)
Theorem errors_are_failed_skipped_rows
    (E : engine) (net : service) (c : State.t) (data : list record) :
  State.file c = Some (Complete data) ->
  configured c = true ->
  exists r,
    State.results (ui (run E net c)) = Some r
    /\ forall e,
        In e (errors r) ->
        count_occ Nat.eq_dec (skippedRows r) (row e) = 1
        /\ exists j rw,
            row e = j + 1
            /\ nth_error data j = Some rw
            /\ handling E net c (with_query E c (firstn j data)) rw
               = Some (Failed (error e))
            /\ query E c rw = Some (location e).
Proof.
  intros Hfile Hready. eexists. split; [apply (run_results E net c data Hfile Hready) |].
  cbn [errors skippedRows]. intros e He.
  destruct (failures_origin E c _ _ _ _ He) as [Hin (j & rw & Hrow & Hj & Hh & Hloc)].
  rewrite (handlings_nth E net c data 0 j rw Hj) in Hh. injection Hh as Hh.
  split.
  - apply NoDup_count_occ'; [apply skipped_indices_NoDup | exact Hin].
  - exists j, rw. repeat split; auto.
    rewrite Hloc. apply (handling_query E net c _ _ _ Hh).
Qed.

(** C6.  The program breaks it for a chosen column that the row lacks
    and whose name is a member of [Object.prototype]: [row[col]] is then
    that member, the row is not skipped, and a request is made for the
    text of the member.  Here the only row lacks the chosen column
    [toString]; the service finds a place, and the row counts as
    processed. *)
Theorem absent_column_of_an_inherited_name_is_requested :
  lookup (State.addressCol Sample.lacking) Sample.short = None
  /\ log (run Sample.engine (Sample.always (Response (Json (Sample.found 1 2))))
            Sample.lacking)
     = [SetProcessing true; SetError ""; SetProgress 0;
        Fetch "https://maps.googleapis.com/maps/api/geocode/json?address=function%20toString()%20%7B%20%5Bnative%20code%5D%20%7D&key=KEY";
        SetProgress 100; Timeout 200;
        SetResults {| totalRows := 1; processedRows := 1; skippedRows := [];
                      errors := [] |};
        SetGeocodedData [[("addr", Str "1 Main St"); ("Latitude", Num 1);
                          ("Longitude", Num 2)]];
        SetProcessing false].
Proof. split; reflexivity. Qed.

(** C7.  The program breaks it for the same columns as C6: a chosen column
    that the row lacks and whose name is a member of [Object.prototype]
    adds the text of that member to the query.  Here the row has the
    address and lacks the chosen city column [toString]: the query the
    specification describes is the address, the query sent has the text of
    the function after it. *)
Theorem inherited_member_enters_the_query :
  location_query Sample.half_lacking Sample.short = "1 Main St"
  /\ query Sample.engine Sample.half_lacking Sample.short
     = Some "1 Main St, function toString() { [native code] }"
  /\ Page.fetched
       (log (run Sample.engine (Sample.always (Response (Json (Sample.found 1 2))))
               Sample.half_lacking))
     = ["https://maps.googleapis.com/maps/api/geocode/json?address=1%20Main%20St%2C%20function%20toString()%20%7B%20%5Bnative%20code%5D%20%7D&key=KEY"].
Proof. repeat split; reflexivity. Qed.

(** C8, as the program has it.  The 200 ms delay follows every row, however
    the row was handled: a row with a query is followed by its request, its
    progress report and the delay, a row without one by its progress report
    and the delay. *)
Theorem every_row_is_followed_by_the_delay
    (E : engine) (net : service) (c : State.t) (i n : nat) (row : record)
    (s : frame) :
  log (snd (iteration E net c i n row s))
  = log s
      ++ match query E c row with
         | None => []
         | Some q => [Fetch (geocode_url c q)]
         end
      ++ [SetProgress (percent i n); Timeout 200]
  /\ delays (log (snd (iteration E net c i n row s))) = delays (log s) ++ [200].
Proof.
  rewrite iteration_after. cbn [snd]. unfold after; cbn [log].
  split; [reflexivity |].
  rewrite !delays_app, delays_requested. reflexivity.
Qed.

(** C10.  When a row is resolved, its output row is the copy of the row
    with [Latitude] and then [Longitude] assigned: the two fields hold the
    coordinates whether or not the row had such columns, a column of that
    name keeps its place and loses its value, and every other field is as
    in the input. *)
Theorem resolved_row_assigns_coordinates
    (E : engine) (net : service) (c : State.t) (i n : nat) (row : record)
    (s : frame) (lat lng : value) :
  handling E net c (requests (log s)) row = Some (Resolved lat lng) ->
  exists out,
    processed (snd (iteration E net c i n row s)) = processed s ++ [out]
    /\ out = assign "Longitude" lng (assign "Latitude" lat (spread row))
    /\ lookup "Latitude" out = Some lat
    /\ lookup "Longitude" out = Some lng
    /\ (forall k, k <> "Latitude" -> k <> "Longitude" ->
                  lookup k out = lookup k (spread row))
    /\ keys out
       = keys (spread row)
           ++ (if has "Latitude" (spread row) then [] else ["Latitude"])
           ++ (if has "Longitude" (spread row) then [] else ["Longitude"]).
Proof.
  intros Hres. rewrite iteration_after. cbn [snd]. unfold after; cbn [processed].
  rewrite Hres. cbn [row_after].
  eexists. split; [reflexivity |]. split; [reflexivity |].
  split; [| split; [| split]].
  - rewrite lookup_assign_other by discriminate. apply lookup_assign_same.
  - apply lookup_assign_same.
  - intros k Hlat Hlng. rewrite !lookup_assign_other by assumption. reflexivity.
  - rewrite !keys_assign. unfold has.
    destruct (existsb (fun k' => String.eqb k' "Latitude") (keys (spread row))).
    + destruct (existsb (fun k' => String.eqb k' "Longitude") (keys (spread row)));
        cbn [app]; rewrite ?app_nil_r; reflexivity.
    + rewrite existsb_app. simpl. rewrite orb_false_r.
      destruct (existsb (fun k' => String.eqb k' "Longitude") (keys (spread row)));
        cbn [app]; rewrite ?app_nil_r, <- ?app_assoc; reflexivity.
Qed.


(** C5.  Without a chosen column or without a key, [processFile] only sets
    the error message: no request, no row handled, tally and output of the
    component as they were.  With both, an empty table gives an empty
    output and a tally of zeros. *)
Theorem unconfigured_run_touches_nothing
    (E : engine) (net : service) (c : State.t) :
  (configured c = false ->
   exists text,
     refusal c = Some text
     /\ run E net c =
        {| ui := with_error text c; results := results (start c);
           processed := []; newRow := []; log := [SetError text] |}
     /\ requests (log (run E net c)) = 0
     /\ State.results (ui (run E net c)) = State.results c
     /\ State.geocodedData (ui (run E net c)) = State.geocodedData c)
  /\ (configured c = true ->
      State.file c = Some (Complete []) ->
      State.results (ui (run E net c))
      = Some {| totalRows := 0; processedRows := 0; skippedRows := []; errors := [] |}
      /\ State.geocodedData (ui (run E net c)) = Some []
      /\ requests (log (run E net c)) = 0).
Proof.
  split.
  - intros Hno. destruct (unconfigured_refusal c Hno) as [text Htext].
    exists text. rewrite (run_refused E net c text Htext).
    repeat split; try reflexivity. exact Htext.
  - intros Hready Hfile.
    rewrite (run_results E net c [] Hfile Hready),
            (run_geocodedData E net c [] Hfile Hready),
            (run_log E net c [] Hfile Hready).
    repeat split.
Qed.

(** C9, as the program has it.  The run reports 0 when it starts and,
    after each row, [(i + 1) / data.length * 100] as doubles compute it: a
    percentage, within 2^-46 of one hundred times the share of the rows
    handled so far.  For a table of fewer than 2^32 rows, which is what an
    array can hold, the reports increase strictly, and the report after a
    row is 100 for the last row and for no other. *)
Theorem progress_is_a_percentage
    (E : engine) (net : service) (c : State.t) (data : list record) :
  State.file c = Some (Complete data) ->
  configured c = true ->
  (Z.of_nat (List.length data) < 2 ^ 32)%Z ->
  let n := List.length data in
  reports (log (run E net c)) = 0%Q :: map (fun i => percent i n) (seq 0 n)
  /\ StronglySorted Qlt (reports (log (run E net c)))
  /\ (forall i, i < n -> (percent i n == 100)%Q <-> i + 1 = n)
  /\ (forall i, i < n ->
                (percent i n - 100 * share (i + 1) n <= 1 # 70368744177664)%Q
                /\ (100 * share (i + 1) n - percent i n <= 1 # 70368744177664)%Q).
Proof.
  intros Hfile Hready Hmax n.
  assert (Hmax' : (Z.of_nat n <= 2 ^ 32)%Z) by (subst n; lia).
  assert (Hreports : reports (log (run E net c))
                     = 0%Q :: map (fun i => percent i n) (seq 0 n)).
  { rewrite (run_log E net c data Hfile Hready), reports_app, reports_after_all.
    simpl. rewrite app_nil_r. reflexivity. }
  split; [exact Hreports |]. split; [| split].
  - rewrite Hreports.
    constructor; [apply percents_sorted; [exact Hmax' | lia] |].
    apply Forall_forall. intros q Hq. apply in_map_iff in Hq.
    destruct Hq as [j [<- Hj]]. apply in_seq in Hj.
    apply percent_pos; [exact Hmax' | lia].
  - intros i Hi. apply percent_full; assumption.
  - intros i Hi. destruct (percent_error i n Hi Hmax') as [Hup Hdown].
    pose proof pow2_54 as H54. pose proof pow2_47 as H47.
    split; lra.
Qed.

(** * The theorems at work on sample runs *)

Lemma tally_counts_every_row_once_witness :
  exists r,
    State.results (ui (run Sample.engine Sample.mixed (Sample.ready Sample.table)))
    = Some r
    /\ totalRows r = 4
    /\ processedRows r + List.length (skippedRows r) = totalRows r
    /\ processedRows r
       = resolved_count Sample.table
           (handlings Sample.engine Sample.mixed (Sample.ready Sample.table) 0
              Sample.table)
    /\ skippedRows r
       = skipped_indices 0 Sample.table
           (handlings Sample.engine Sample.mixed (Sample.ready Sample.table) 0
              Sample.table)
    /\ NoDup (skippedRows r).
Proof.
  apply (tally_counts_every_row_once Sample.engine Sample.mixed
           (Sample.ready Sample.table) Sample.table); reflexivity.
Defined.

(** Four rows, the first resolved, the second blank, the third failed and
    the fourth beyond the replies of the service: the output has the four
    rows in their order, the first with its coordinates. *)
Lemma output_follows_input_witness :
  State.geocodedData (ui (run Sample.engine Sample.mixed (Sample.ready Sample.table)))
  = Some [[("addr", Str "1 Main St"); ("city", Str "Springfield");
           ("Latitude", Num 1); ("Longitude", Num 2)];
          [("addr", Str ""); ("city", Str "")];
          [("addr", Str "5 Elm St"); ("city", Str "Shelbyville")];
          [("addr", Str "9 Oak Ave"); ("Latitude", Str "old");
           ("city", Str "Ogdenville")]]
  /\ exists out,
      State.geocodedData
        (ui (run Sample.engine Sample.mixed (Sample.ready Sample.table)))
      = Some out
      /\ List.length out = 4
      /\ forall j rw,
          nth_error Sample.table j = Some rw ->
          exists o,
            nth_error out j = Some o
            /\ (o = spread rw
                \/ exists lat lng,
                    o = assign "Longitude" lng
                          (assign "Latitude" lat (spread rw)))
            /\ (forall k, k <> "Latitude" -> k <> "Longitude" ->
                          lookup k o = option_map cell_value (lookup k rw))
            /\ firstn (List.length rw) (keys o) = keys rw.
Proof.
  split; [reflexivity |].
  apply (output_follows_input Sample.engine Sample.mixed
           (Sample.ready Sample.table) Sample.table); reflexivity.
Defined.

Lemma errors_are_failed_skipped_rows_witness :
  exists r,
    State.results (ui (run Sample.engine Sample.mixed (Sample.ready Sample.table)))
    = Some r
    /\ forall e,
        In e (errors r) ->
        count_occ Nat.eq_dec (skippedRows r) (row e) = 1
        /\ exists j rw,
            row e = j + 1
            /\ nth_error Sample.table j = Some rw
            /\ handling Sample.engine Sample.mixed (Sample.ready Sample.table)
                 (with_query Sample.engine (Sample.ready Sample.table) (firstn j Sample.table)) rw
               = Some (Failed (error e))
            /\ query Sample.engine (Sample.ready Sample.table) rw = Some (location e).
Proof.
  apply (errors_are_failed_skipped_rows Sample.engine Sample.mixed
           (Sample.ready Sample.table) Sample.table); reflexivity.
Defined.



(** A status that cannot be made a text fails the row with the message of
    the conversion, not with [Geocoding failed:]. *)
Example odd_status_fails_with_the_conversion_error :
  State.results
    (ui (run Sample.engine (Sample.always (Response (Json Sample.odd_status)))
           (Sample.ready [Sample.main_street])))
  = Some {| totalRows := 1; processedRows := 0; skippedRows := [1];
            errors := [{| row := 1;
                          error := "Cannot convert object to primitive value";
                          location := "1 Main St, Springfield" |}] |}.
Proof. reflexivity. Qed.

(** A first result without [geometry] fails the row although the status is
    [OK]. *)
Example result_without_geometry_is_an_error :
  State.results
    (ui (run Sample.engine (Sample.always (Response (Json Sample.no_geometry)))
           (Sample.ready [Sample.main_street])))
  = Some {| totalRows := 1; processedRows := 0; skippedRows := [1];
            errors := [{| row := 1;
                          error := "Cannot read properties of undefined (reading 'location')";
                          location := "1 Main St, Springfield" |}] |}.
Proof. reflexivity. Qed.

Lemma unconfigured_run_touches_nothing_witness :
  configured (Sample.component (Some (Complete Sample.table)) "" "addr" "city" "")
  = false
  /\ exists text,
      refusal (Sample.component (Some (Complete Sample.table)) "" "addr" "city" "")
      = Some text
      /\ run Sample.engine Sample.mixed
           (Sample.component (Some (Complete Sample.table)) "" "addr" "city" "")
         = {| ui := with_error text
                      (Sample.component (Some (Complete Sample.table))
                         "" "addr" "city" "");
              results := results
                           (start (Sample.component (Some (Complete Sample.table))
                                     "" "addr" "city" ""));
              processed := []; newRow := []; log := [SetError text] |}
      /\ requests
           (log (run Sample.engine Sample.mixed
                   (Sample.component (Some (Complete Sample.table))
                      "" "addr" "city" ""))) = 0
      /\ State.results
           (ui (run Sample.engine Sample.mixed
                  (Sample.component (Some (Complete Sample.table))
                     "" "addr" "city" ""))) = None
      /\ State.geocodedData
           (ui (run Sample.engine Sample.mixed
                  (Sample.component (Some (Complete Sample.table))
                     "" "addr" "city" ""))) = None.
Proof.
  split; [reflexivity |].
  apply (proj1 (unconfigured_run_touches_nothing Sample.engine Sample.mixed
                  (Sample.component (Some (Complete Sample.table))
                     "" "addr" "city" ""))).
  reflexivity.
Defined.

(** C8 as stated fails: the only row has no query, no request is made, and
    the delay follows all the same. *)
Lemma blank_row_is_followed_by_the_delay :
  query Sample.engine (Sample.ready [Sample.blank]) Sample.blank = None
  /\ log (run Sample.engine Sample.mixed (Sample.ready [Sample.blank]))
     = [SetProcessing true; SetError ""; SetProgress 0;
        SetProgress 100; Timeout 200;
        SetResults {| totalRows := 1; processedRows := 0; skippedRows := [1];
                      errors := [] |};
        SetGeocodedData [[("addr", Str ""); ("city", Str "")]];
        SetProcessing false].
Proof. split; reflexivity. Qed.

(** Three rows: a third and two thirds as doubles have them,
    33.33333333333333 and 66.66666666666666, then 100. *)
Lemma progress_is_a_percentage_witness :
  reports
    (log (run Sample.engine Sample.mixed
            (Sample.ready [Sample.main_street; Sample.blank; Sample.elm_street])))
  = [0; 2345624805922133 # 70368744177664; 2345624805922133 # 35184372088832;
     100]%Q
  /\ StronglySorted Qlt
       (reports
          (log (run Sample.engine Sample.mixed
                  (Sample.ready
                     [Sample.main_street; Sample.blank; Sample.elm_street])))).
Proof.
  destruct (progress_is_a_percentage Sample.engine Sample.mixed
              (Sample.ready [Sample.main_street; Sample.blank; Sample.elm_street])
              [Sample.main_street; Sample.blank; Sample.elm_street]
              eq_refl eq_refl eq_refl)
    as (Hreports & Hsorted & _).
  split; [exact Hreports | exact Hsorted].
Defined.

(** C9 as stated fails: a run over one row reports 0 and then 100, never 1. *)
Lemma one_row_run_reports_100 :
  reports (log (run Sample.engine Sample.mixed (Sample.ready [Sample.main_street])))
  = [0%Q; 100%Q]
  /\ ~ (0 == 1)%Q
  /\ ~ (100 == 1)%Q.
Proof. repeat split; discriminate. Qed.

(** The row has a column [Latitude]: its value is replaced, in place. *)
Lemma resolved_row_assigns_coordinates_witness :
  exists out,
    processed
      (snd (iteration Sample.engine Sample.mixed (Sample.ready [Sample.surveyed]) 0 1
              Sample.surveyed (begun (Sample.ready [Sample.surveyed]) 1)))
    = [] ++ [out]
    /\ out = [("addr", Str "9 Oak Ave"); ("Latitude", Num 1);
              ("city", Str "Ogdenville"); ("Longitude", Num 2)].
Proof.
  destruct (resolved_row_assigns_coordinates Sample.engine Sample.mixed
              (Sample.ready [Sample.surveyed]) 0 1 Sample.surveyed
              (begun (Sample.ready [Sample.surveyed]) 1) (Num 1) (Num 2) eq_refl)
    as (out & Hprocessed & Hout & _).
  exists out. split; [exact Hprocessed | exact Hout].
Defined.

(** * The scenarios of the specification *)

Example encode_query :
  encodeURIComponent "1 Main St, Springfield" = "1%20Main%20St%2C%20Springfield".
Proof. reflexivity. Qed.

Example one_row_resolved :
  let r := run Sample.engine (Sample.always (Response (Json (Sample.found 1 2))))
             (Sample.ready [Sample.main_street]) in
  State.results (ui r)
  = Some {| totalRows := 1; processedRows := 1; skippedRows := []; errors := [] |}
  /\ State.geocodedData (ui r)
     = Some [[("addr", Str "1 Main St"); ("city", Str "Springfield");
              ("Latitude", Num 1); ("Longitude", Num 2)]].
Proof. split; reflexivity. Qed.

Example second_row_blank :
  let r := run Sample.engine (Sample.always (Response (Json (Sample.found 1 2))))
             (Sample.ready [Sample.main_street; Sample.blank; Sample.elm_street]) in
  State.results (ui r)
  = Some {| totalRows := 3; processedRows := 2; skippedRows := [2]; errors := [] |}
  /\ requests (log r) = 2.
Proof. split; reflexivity. Qed.

Example request_fails :
  State.results
    (ui (run Sample.engine (Sample.always (NetworkError "Failed to fetch"))
           (Sample.ready [Sample.main_street])))
  = Some {| totalRows := 1; processedRows := 0; skippedRows := [1];
            errors := [{| row := 1; error := "Failed to fetch";
                          location := "1 Main St, Springfield" |}] |}.
Proof. reflexivity. Qed.

Example mixed_table :
  State.results (ui (run Sample.engine Sample.mixed (Sample.ready Sample.table)))
  = Some {| totalRows := 4; processedRows := 1; skippedRows := [2; 3; 4];
            errors := [{| row := 3; error := "Geocoding failed: REQUEST_DENIED";
                          location := "5 Elm St, Shelbyville" |};
                       {| row := 4; error := "Failed to fetch";
                          location := "9 Oak Ave, Ogdenville" |}] |}.
Proof. reflexivity. Qed.

(** * More about a run *)

Lemma fetched_app (l l' : list event) :
  Page.fetched (l ++ l') = Page.fetched l ++ Page.fetched l'.
Proof.
  induction l as [| e l IH]; simpl; [reflexivity |].
  destruct e; simpl; rewrite IH; reflexivity.
Qed.

Lemma rejections_app (l l' : list event) :
  Page.rejections (l ++ l') = Page.rejections l ++ Page.rejections l'.
Proof.
  induction l as [| e l IH]; simpl; [reflexivity |].
  destruct e; simpl; rewrite IH; reflexivity.
Qed.

Lemma fetched_requested (E : engine) (c : State.t) (row : record) :
  Page.fetched (requested E c row)
  = map (geocode_url c) (match query E c row with Some q => [q] | None => [] end).
Proof. unfold requested. destruct (query E c row); reflexivity. Qed.

Lemma rejections_requested (E : engine) (c : State.t) (row : record) :
  Page.rejections (requested E c row) = [].
Proof. unfold requested. destruct (query E c row); reflexivity. Qed.

Lemma fetched_after_all (E : engine) (net : service) (c : State.t)
    (rows : list record) (i n : nat) (s : frame) :
  Page.fetched (log (after_all E net c i n rows s))
  = Page.fetched (log s) ++ map (geocode_url c) (Page.queries E c rows).
Proof.
  revert i s; induction rows as [| row rest IH]; intros i s; simpl.
  - rewrite app_nil_r; reflexivity.
  - rewrite IH. unfold after; cbn [log].
    rewrite !fetched_app, fetched_requested. simpl. rewrite app_nil_r.
    unfold Page.queries; simpl. rewrite map_app, <- app_assoc. reflexivity.
Qed.

Lemma rejections_after_all (E : engine) (net : service) (c : State.t)
    (rows : list record) (i n : nat) (s : frame) :
  Page.rejections (log (after_all E net c i n rows s)) = Page.rejections (log s).
Proof.
  revert i s; induction rows as [| row rest IH]; intros i s; simpl.
  - reflexivity.
  - rewrite IH. unfold after; cbn [log].
    rewrite !rejections_app, rejections_requested. simpl. apply app_nil_r.
Qed.

(** The component state after the loop: only [progress] has moved, to the
    report of the last row. *)
Lemma ui_after_all (E : engine) (net : service) (c : State.t)
    (rows : list record) (i n : nat) (s : frame) :
  ui (after_all E net c i n rows s)
  = match rows with
    | [] => ui s
    | _ :: rest => with_progress (percent (i + List.length rest) n) (ui s)
    end.
Proof.
  revert i s; induction rows as [| row rest IH]; intros i s; simpl.
  - reflexivity.
  - rewrite IH. destruct rest as [| row' rest']; simpl.
    + rewrite Nat.add_0_r. reflexivity.
    + unfold with_progress; simpl. do 2 f_equal. lia.
Qed.

Lemma queries_length (E : engine) (c : State.t) (rows : list record) :
  List.length (Page.queries E c rows) <= List.length rows.
Proof.
  induction rows as [| row rest IH]; simpl; [lia |].
  unfold Page.queries in *; simpl. rewrite length_app.
  destruct (query E c row); simpl; lia.
Qed.

Lemma refusal_none (c : State.t) :
  refusal c = None -> exists f, State.file c = Some f /\ configured c = true.
Proof.
  unfold refusal, configured. destruct (State.file c) as [f |]; [| discriminate].
  intros H. exists f. split; [reflexivity |].
  destruct (truthy (Str (State.addressCol c))),
           (truthy (Str (State.cityCol c))),
           (truthy (Str (State.countryCol c))),
           (truthy (Str (State.apiKey c))); simpl in *; congruence.
Qed.

(** A run over a file that cannot be read. *)
Lemma run_unreadable (E : engine) (net : service) (c : State.t) (text : string) :
  State.file c = Some (Unreadable text) ->
  configured c = true ->
  run E net c =
  {| ui := with_processing false
             (with_error ("Error processing file: " ++ text)%string
                (with_progress 0 (with_error "" (with_processing true c))));
     results := {| totalRows := 0; processedRows := 0;
                   skippedRows := []; errors := [] |};
     processed := [];
     newRow := [];
     log := [SetProcessing true; SetError ""; SetProgress 0;
             SetError ("Error processing file: " ++ text)%string;
             SetProcessing false] |}.
Proof.
  unfold configured, run, processFile. intros -> H.
  apply andb_prop in H. destruct H as [Hcol Hkey]. rewrite Hkey.
  assert (negb (truthy (Str (State.addressCol c)))
          && negb (truthy (Str (State.cityCol c)))
          && negb (truthy (Str (State.countryCol c))) = false) as ->.
  { destruct (truthy (Str (State.addressCol c))),
             (truthy (Str (State.cityCol c))),
             (truthy (Str (State.countryCol c))); simpl in *; congruence. }
  reflexivity.
Qed.

(** X1.  In a completed run the requests are, in order, those for the
    queries of the rows that have one: one request for each such row, none
    repeated after a failure, none for the other rows. *)
Theorem requests_follow_the_rows
    (E : engine) (net : service) (c : State.t) (data : list record) :
  State.file c = Some (Complete data) ->
  configured c = true ->
  Page.fetched (log (run E net c)) = map (geocode_url c) (Page.queries E c data)
  /\ requests (log (run E net c)) = List.length (Page.queries E c data)
  /\ requests (log (run E net c)) <= List.length data.
Proof.
  intros Hfile Hready.
  assert (Hrequests : requests (log (run E net c))
                      = List.length (Page.queries E c data)).
  { rewrite (run_log E net c data Hfile Hready), requests_app, requests_after_all.
    simpl. unfold with_query, Page.queries. rewrite Nat.add_0_r.
    clear. induction data as [| row rest IH]; simpl; [reflexivity |].
    rewrite !length_app, IH. unfold requested.
    destruct (query E c row); reflexivity. }
  split; [| split; [exact Hrequests |]].
  - rewrite (run_log E net c data Hfile Hready), fetched_app, fetched_after_all.
    simpl. apply app_nil_r.
  - rewrite Hrequests. apply queries_length.
Qed.

(** X2.  When the file cannot be read, the run ends with the message
    [Error processing file: ...] and [processing] off; it makes no request
    and leaves the tally and the output of the component as they were. *)
Theorem unreadable_file_is_reported
    (E : engine) (net : service) (c : State.t) (text : string) :
  State.file c = Some (Unreadable text) ->
  configured c = true ->
  State.error (ui (run E net c)) = ("Error processing file: " ++ text)%string
  /\ State.processing (ui (run E net c)) = false
  /\ requests (log (run E net c)) = 0
  /\ State.results (ui (run E net c)) = State.results c
  /\ State.geocodedData (ui (run E net c)) = State.geocodedData c.
Proof.
  intros Hfile Hready. rewrite (run_unreadable E net c text Hfile Hready).
  repeat split.
Qed.

(** X3.  A completed run ends with [processing] off and no error message,
    whatever the service answered: nothing escapes the loop, the Process
    button is enabled again and the Download button is shown.  The last
    progress report stays in the state: 100 when there were rows, 0 when
    there were none. *)
Theorem completed_run_ends_idle
    (E : engine) (net : service) (c : State.t) (data : list record) :
  State.file c = Some (Complete data) ->
  configured c = true ->
  State.processing (ui (run E net c)) = false
  /\ State.error (ui (run E net c)) = ""
  /\ Page.rejections (log (run E net c)) = []
  /\ (State.progress (ui (run E net c))
      == if List.length data =? 0 then 0 else 100)%Q
  /\ Page.process_disabled (ui (run E net c)) = false
  /\ Page.download_shown (ui (run E net c)) = true.
Proof.
  intros Hfile Hready.
  assert (Hinputs : State.file (ui (run E net c)) = Some (Complete data)).
  { rewrite (run_complete E net c data Hfile Hready).
    unfold finished; cbn [ui]. rewrite ui_after_all.
    destruct data; exact Hfile. }
  assert (Hidle : State.processing (ui (run E net c)) = false).
  { rewrite (run_complete E net c data Hfile Hready). reflexivity. }
  split; [exact Hidle |].
  split; [| split; [| split; [| split]]];
    [| | | unfold Page.process_disabled; rewrite Hidle, Hinputs; reflexivity
     | unfold Page.download_shown;
       rewrite (run_geocodedData E net c data Hfile Hready); reflexivity].
  - rewrite (run_complete E net c data Hfile Hready).
    unfold finished; cbn [ui]. rewrite ui_after_all.
    destruct data; reflexivity.
  - rewrite (run_log E net c data Hfile Hready), rejections_app,
      rejections_after_all. reflexivity.
  - rewrite (run_complete E net c data Hfile Hready).
    unfold finished; cbn [ui]. rewrite ui_after_all.
    destruct data as [| row rest]; [reflexivity |].
    cbn [List.length Nat.eqb with_processing with_geocodedData with_results
         with_progress State.progress].
    apply percent_last; simpl; lia.
Qed.

Lemma inputs_after_run (E : engine) (net : service) (c : State.t) :
  Page.inputs (ui (run E net c)) = Page.inputs c.
Proof.
  destruct (refusal c) as [text |] eqn:Hrefusal.
  - rewrite (run_refused E net c text Hrefusal). reflexivity.
  - destruct (refusal_none c Hrefusal) as [f [Hfile Hready]].
    destruct f as [data | text].
    + rewrite (run_complete E net c data Hfile Hready).
      unfold finished; cbn [ui]. rewrite ui_after_all.
      destruct data; reflexivity.
    + rewrite (run_unreadable E net c text Hfile Hready). reflexivity.
Qed.

(** X7.  No run changes what it reads of the component: the file, the key
    and the three chosen columns are after the run what they were before,
    whether the run was refused, failed on the file or completed. *)
Theorem run_keeps_its_inputs (E : engine) (net : service) (c : State.t) :
  State.file (ui (run E net c)) = State.file c
  /\ State.apiKey (ui (run E net c)) = State.apiKey c
  /\ State.addressCol (ui (run E net c)) = State.addressCol c
  /\ State.cityCol (ui (run E net c)) = State.cityCol c
  /\ State.countryCol (ui (run E net c)) = State.countryCol c.
Proof.
  pose proof (inputs_after_run E net c) as H. unfold Page.inputs in H.
  injection H as Hfile Hkey Haddress Hcity Hcountry. auto.
Qed.

(** ** A run depends on its inputs only *)

Section SameInputs.

Variable E : engine.
Variable net : service.
Variables c c' : State.t.

Hypothesis same : Page.inputs c = Page.inputs c'.

Lemma same_fields :
  State.file c = State.file c'
  /\ State.apiKey c = State.apiKey c'
  /\ State.addressCol c = State.addressCol c'
  /\ State.cityCol c = State.cityCol c'
  /\ State.countryCol c = State.countryCol c'.
Proof.
  unfold Page.inputs in same.
  injection same as Hfile Hkey Haddress Hcity Hcountry. auto.
Qed.

Lemma same_locationParts (row : record) :
  locationParts c row = locationParts c' row.
Proof.
  destruct same_fields as (_ & _ & Ha & Hb & Hc).
  unfold locationParts. rewrite Ha, Hb, Hc. reflexivity.
Qed.

Lemma same_geocode_url (q : string) : geocode_url c q = geocode_url c' q.
Proof.
  destruct same_fields as (_ & Hkey & _). unfold geocode_url.
  rewrite Hkey. reflexivity.
Qed.

Lemma same_after (i n : nat) (row : record) (s s' : frame) :
  log s = log s' -> results s = results s' -> processed s = processed s' ->
  log (after E net c i n row s) = log (after E net c' i n row s')
  /\ results (after E net c i n row s) = results (after E net c' i n row s')
  /\ processed (after E net c i n row s) = processed (after E net c' i n row s').
Proof.
  intros Hlog Hresults Hprocessed.
  unfold after, handling, requested, query, tally_after; cbn [log results processed].
  rewrite <- same_locationParts, <- Hlog, <- Hresults, <- Hprocessed.
  destruct (0 <? List.length (locationParts c row));
    rewrite <- ?same_geocode_url; repeat split.
Qed.

Lemma same_after_all (rows : list record) (i n : nat) (s s' : frame) :
  log s = log s' -> results s = results s' -> processed s = processed s' ->
  log (after_all E net c i n rows s) = log (after_all E net c' i n rows s')
  /\ results (after_all E net c i n rows s)
     = results (after_all E net c' i n rows s')
  /\ processed (after_all E net c i n rows s)
     = processed (after_all E net c' i n rows s').
Proof.
  revert i s s'; induction rows as [| row rest IH]; intros i s s' Hl Hr Hp; simpl.
  - auto.
  - destruct (same_after i n row s s' Hl Hr Hp) as (Hl' & Hr' & Hp').
    apply IH; assumption.
Qed.

Lemma same_refusal : refusal c = refusal c'.
Proof.
  destruct same_fields as (Hfile & Hkey & Ha & Hb & Hc).
  unfold refusal. rewrite Hfile, Hkey, Ha, Hb, Hc. reflexivity.
Qed.

Lemma same_log : log (run E net c) = log (run E net c').
Proof.
  pose proof same_refusal as Hrefusal.
  destruct (refusal c) as [text |] eqn:Hc.
  - rewrite (run_refused E net c text Hc),
            (run_refused E net c' text (eq_sym Hrefusal)). reflexivity.
  - destruct (refusal_none c Hc) as [f [Hfile Hready]].
    destruct (refusal_none c' (eq_sym Hrefusal)) as [f' [Hfile' Hready']].
    destruct same_fields as (Hsame & _).
    assert (f' = f) by congruence. subst f'.
    destruct f as [data | text].
    + rewrite (run_complete E net c data Hfile Hready),
              (run_complete E net c' data Hfile' Hready').
      destruct (same_after_all data 0 (List.length data)
                  (begun c (List.length data)) (begun c' (List.length data))
                  eq_refl eq_refl eq_refl) as (Hl & Hr & Hp).
      unfold finished; cbn [log]. rewrite Hl, Hr, Hp. reflexivity.
    + rewrite (run_unreadable E net c text Hfile Hready),
              (run_unreadable E net c' text Hfile' Hready'). reflexivity.
Qed.

End SameInputs.

(** X15.  A second run from the state a run has left does all of it
    again: the same setter calls, requests and delays in the same order
    when the service answers as before.  The tally of the first run is not
    carried over or added to. *)
Theorem rerun_starts_afresh (E : engine) (net : service) (c : State.t) :
  log (run E net (ui (run E net c))) = log (run E net c).
Proof. apply same_log, inputs_after_run. Qed.

(** ** Order and completeness of the tally *)

Lemma skipped_indices_sorted (rows : list record) (hs : list (option Outcome))
    (i : nat) :
  StronglySorted lt (skipped_indices i rows hs).
Proof.
  revert hs i; induction rows as [| rw rest IH]; intros [| h hs] i;
    simpl; try constructor.
  destruct h as [[lat lng | | text] |]; try apply IH;
    (constructor; [apply IH |]);
    apply Forall_forall; intros x Hx;
    apply skipped_indices_bounds in Hx; lia.
Qed.

Lemma failures_rows_sorted (E : engine) (c : State.t) (rows : list record)
    (hs : list (option Outcome)) (i : nat) :
  StronglySorted lt (map row (failures E c i rows hs)).
Proof.
  revert hs i; induction rows as [| rw rest IH]; intros [| h hs] i;
    simpl; try constructor.
  destruct h as [[lat lng | | text] |]; try apply IH.
  simpl. constructor; [apply IH |].
  apply Forall_forall. intros x Hx. apply in_map_iff in Hx.
  destruct Hx as [e [<- He]].
  apply failures_origin in He. destruct He as [He _].
  apply skipped_indices_bounds in He. simpl. lia.
Qed.

Lemma failures_complete (E : engine) (c : State.t) (rows : list record)
    (hs : list (option Outcome)) (i j : nat) (rw : record) (text : string) :
  nth_error rows j = Some rw ->
  nth_error hs j = Some (Some (Failed text)) ->
  In {| row := i + j + 1; error := text;
        location := join E ", " (locationParts c rw) |}
     (failures E c i rows hs).
Proof.
  revert hs i j; induction rows as [| r rest IH]; intros [| h hs] i j Hj Hh;
    try (destruct j; discriminate).
  destruct j as [| j]; simpl in *.
  - injection Hj as <-. injection Hh as ->. left. f_equal. lia.
  - specialize (IH hs (i + 1) j Hj Hh).
    replace (i + 1 + j + 1) with (i + S j + 1) in IH by lia.
    destruct h as [[lat lng | | text'] |]; simpl; auto.
Qed.

Lemma failures_le_skipped (E : engine) (c : State.t) (rows : list record)
    (hs : list (option Outcome)) (i : nat) :
  List.length (failures E c i rows hs) <= List.length (skipped_indices i rows hs).
Proof.
  revert hs i; induction rows as [| rw rest IH]; intros [| h hs] i;
    simpl; try lia.
  specialize (IH hs (i + 1)).
  destruct h as [[lat lng | | text] |]; simpl; lia.
Qed.

(** X4.  In the tally of a completed run [skippedRows] is in increasing
    order, every index in it is a row number between 1 and [totalRows], and
    [processedRows] is at most [totalRows]. *)
Theorem skipped_rows_are_ordered_row_numbers
    (E : engine) (net : service) (c : State.t) (data : list record) :
  State.file c = Some (Complete data) ->
  configured c = true ->
  exists r,
    State.results (ui (run E net c)) = Some r
    /\ StronglySorted lt (skippedRows r)
    /\ Forall (fun x => 1 <= x <= totalRows r) (skippedRows r)
    /\ processedRows r <= totalRows r.
Proof.
  intros Hfile Hready. eexists.
  split; [apply (run_results E net c data Hfile Hready) |].
  cbn [skippedRows totalRows processedRows]. split; [| split].
  - apply skipped_indices_sorted.
  - apply Forall_forall. intros x Hx.
    apply skipped_indices_bounds in Hx. lia.
  - pose proof (buckets_count data (handlings E net c 0 data) 0
                  (eq_sym (handlings_length E net c data 0))). lia.
Qed.

(** X5.  In the tally of a completed run every row whose request failed
    has its entry in [errors], with its row number, the message and its
    query; the entries are in the order of the rows, and there are no
    more of them than skipped rows. *)
Theorem every_failed_row_is_recorded
    (E : engine) (net : service) (c : State.t) (data : list record) :
  State.file c = Some (Complete data) ->
  configured c = true ->
  exists r,
    State.results (ui (run E net c)) = Some r
    /\ (forall j rw text,
           nth_error data j = Some rw ->
           handling E net c (with_query E c (firstn j data)) rw = Some (Failed text) ->
           In {| row := j + 1; error := text;
                 location := join E ", " (locationParts c rw) |} (errors r))
    /\ StronglySorted lt (map row (errors r))
    /\ List.length (errors r) <= List.length (skippedRows r).
Proof.
  intros Hfile Hready. eexists.
  split; [apply (run_results E net c data Hfile Hready) |].
  cbn [errors skippedRows]. split; [| split].
  - intros j rw text Hj Hh.
    apply (failures_complete E c data (handlings E net c 0 data) 0 j rw text Hj).
    rewrite (handlings_nth E net c data 0 j rw Hj). simpl. rewrite Hh. reflexivity.
  - apply failures_rows_sorted.
  - apply failures_le_skipped.
Qed.

(** X6.  A row that was not resolved (no query, no result, or a failure at
    any point of the lookup) is in the output exactly as it was in the
    input: nothing is written to a row before its lookup has succeeded. *)
Theorem unresolved_rows_pass_unchanged
    (E : engine) (net : service) (c : State.t) (data : list record) :
  State.file c = Some (Complete data) ->
  configured c = true ->
  exists out,
    State.geocodedData (ui (run E net c)) = Some out
    /\ forall j rw,
        nth_error data j = Some rw ->
        (forall lat lng,
            handling E net c (with_query E c (firstn j data)) rw
            <> Some (Resolved lat lng)) ->
        nth_error out j = Some (spread rw).
Proof.
  intros Hfile Hready. eexists.
  split; [apply (run_geocodedData E net c data Hfile Hready) |].
  intros j rw Hj Hnot.
  destruct (rows_after_nth data (handlings E net c 0 data) j rw
              (handlings_length E net c data 0) Hj) as [h [Hh Hout]].
  rewrite (handlings_nth E net c data 0 j rw Hj) in Hh. simpl in Hh.
  injection Hh as Hh. rewrite Hout. f_equal.
  destruct h as [[lat lng | | text] |]; try reflexivity.
  exfalso. apply (Hnot lat lng). exact Hh.
Qed.

(** ** When a row counts as processed *)

Lemma classify_resolved (E : engine) (answer : reply) (lat lng : value) :
  classify E answer = Resolved lat lng ->
  exists data,
    answer = Response (Json data)
    /\ property data (Name "status") = Str "OK"
    /\ truthy (first_result data) = true
    /\ nullish (property (first_result data) (Name "geometry")) = false
    /\ nullish (property (property (first_result data) (Name "geometry"))
                  (Name "location")) = false
    /\ lat = property (property (property (first_result data) (Name "geometry"))
                         (Name "location")) (Name "lat")
    /\ lng = property (property (property (first_result data) (Name "geometry"))
                         (Name "location")) (Name "lng").
Proof.
  unfold classify. destruct answer as [text | [text | data]]; try discriminate.
  destruct (nullish data); [discriminate |].
  destruct (is_string (property data (Name "status")) "OK") eqn:Hok; simpl.
  - apply is_string_true in Hok.
    destruct (truthy (first_result data)) eqn:Hfirst; [| discriminate].
    destruct (nullish (property (first_result data) (Name "geometry")))
      eqn:Hgeometry; [discriminate |].
    destruct (nullish (property (property (first_result data) (Name "geometry"))
                         (Name "location"))) eqn:Hlocation; [discriminate |].
    intros [= <- <-]. exists data. repeat split; auto.
  - destruct (ToString E (property data (Name "status"))); discriminate.
Qed.

(** X8.  One turn of the loop adds at most one to [processedRows], and
    adds it only when the row had a query, the service answered with JSON
    of status [OK] and a first result with a [geometry] that has a
    [location] (neither [null] nor [undefined]); the output row then
    carries that location's [lat] and [lng], be they missing
    ([undefined]). *)
Theorem processed_only_on_ok
    (E : engine) (net : service) (c : State.t) (i n : nat) (row : record)
    (s : frame) :
  processedRows (results (snd (iteration E net c i n row s)))
  = processedRows (results s)
  \/ (processedRows (results (snd (iteration E net c i n row s)))
      = processedRows (results s) + 1
      /\ exists q data,
          query E c row = Some q
          /\ net (requests (log s)) (geocode_url c q) = Response (Json data)
          /\ property data (Name "status") = Str "OK"
          /\ truthy (first_result data) = true
          /\ nullish (property (first_result data) (Name "geometry")) = false
          /\ nullish (property (property (first_result data) (Name "geometry"))
                        (Name "location")) = false
          /\ newRow (snd (iteration E net c i n row s))
             = assign "Longitude"
                 (property (property (property (first_result data) (Name "geometry"))
                              (Name "location")) (Name "lng"))
                 (assign "Latitude"
                    (property (property (property (first_result data)
                                           (Name "geometry"))
                                 (Name "location")) (Name "lat"))
                    (spread row))).
Proof.
  rewrite iteration_after. cbn [snd]. unfold after; cbn [results newRow].
  unfold handling. destruct (query E c row) as [q |]; [| left; reflexivity].
  destruct (classify E (net (requests (log s)) (geocode_url c q)))
    as [lat lng | | text] eqn:Hclass; try (left; reflexivity).
  right. split; [reflexivity |].
  destruct (classify_resolved E _ lat lng Hclass)
    as (data & Hanswer & Hstatus & Hfirst & Hgeometry & Hlocation & -> & ->).
  exists q, data. repeat split; auto.
Qed.

(** ** The URL of a request *)

Lemma chars_append (a b : string) :
  list_ascii_of_string (a ++ b)%string
  = list_ascii_of_string a ++ list_ascii_of_string b.
Proof. induction a as [| ch a IH]; simpl; [reflexivity | rewrite IH; reflexivity]. Qed.

Lemma chars_inj (a b : string) :
  list_ascii_of_string a = list_ascii_of_string b -> a = b.
Proof.
  intros H. rewrite <- (string_of_list_ascii_of_string a),
                    <- (string_of_list_ascii_of_string b), H. reflexivity.
Qed.

Lemma hex_digit_code (k : nat) :
  k < 16 -> nat_of_ascii (hex_digit k) = if k <? 10 then 48 + k else 55 + k.
Proof.
  intros Hk. unfold hex_digit.
  destruct (k <? 10); apply nat_ascii_embedding; lia.
Qed.

Lemma hex_digit_inj (k k' : nat) :
  k < 16 -> k' < 16 -> hex_digit k = hex_digit k' -> k = k'.
Proof.
  intros Hk Hk' H. apply (f_equal nat_of_ascii) in H.
  rewrite (hex_digit_code k Hk), (hex_digit_code k' Hk') in H.
  destruct (k <? 10) eqn:Ek; destruct (k' <? 10) eqn:Ek';
    try apply Nat.ltb_lt in Ek; try apply Nat.ltb_lt in Ek';
    try apply Nat.ltb_ge in Ek; try apply Nat.ltb_ge in Ek'; lia.
Qed.

Lemma hex_digit_unreserved (k : nat) : k < 16 -> uri_unreserved (hex_digit k) = true.
Proof.
  intros Hk. unfold uri_unreserved. rewrite (hex_digit_code k Hk).
  destruct (k <? 10) eqn:Ek.
  - apply Nat.ltb_lt in Ek.
    replace ((48 <=? 48 + k) && (48 + k <=? 57)) with true;
      [rewrite !orb_true_r; reflexivity |].
    symmetry. apply andb_true_intro. split; apply Nat.leb_le; lia.
  - apply Nat.ltb_ge in Ek.
    replace ((65 <=? 55 + k) && (55 + k <=? 90)) with true; [reflexivity |].
    symmetry. apply andb_true_intro. split; apply Nat.leb_le; lia.
Qed.

Lemma code_below_256 (ch : ascii) : nat_of_ascii ch < 256.
Proof. apply nat_ascii_bounded. Qed.

Lemma hex_pair_inj (n n' : nat) :
  n < 256 -> n' < 256 ->
  hex_digit (n / 16) = hex_digit (n' / 16) ->
  hex_digit (n mod 16) = hex_digit (n' mod 16) ->
  n = n'.
Proof.
  intros Hn Hn' Hhigh Hlow.
  apply hex_digit_inj in Hhigh;
    [| apply Nat.Div0.div_lt_upper_bound; lia
     | apply Nat.Div0.div_lt_upper_bound; lia].
  apply hex_digit_inj in Hlow;
    [| apply Nat.mod_upper_bound; lia | apply Nat.mod_upper_bound; lia].
  rewrite (Nat.div_mod_eq n 16), (Nat.div_mod_eq n' 16).
  rewrite Hhigh, Hlow. reflexivity.
Qed.

Lemma encodeURIComponent_chars (s : string) :
  Forall (fun ch => uri_unreserved ch = true \/ ch = "%"%char)
         (list_ascii_of_string (encodeURIComponent s)).
Proof.
  induction s as [| ch rest IH];
    cbn -[Nat.div Nat.modulo hex_digit uri_unreserved]; [constructor |].
  destruct (uri_unreserved ch) eqn:Hch;
    cbn -[Nat.div Nat.modulo hex_digit uri_unreserved].
  - constructor; [left; exact Hch | exact IH].
  - pose proof (code_below_256 ch) as Hcode.
    constructor; [right; reflexivity |].
    constructor; [left; apply hex_digit_unreserved;
                  apply Nat.Div0.div_lt_upper_bound; lia |].
    constructor; [left; apply hex_digit_unreserved;
                  apply Nat.mod_upper_bound; lia |].
    exact IH.
Qed.

Lemma encodeURIComponent_inj (s s' : string) :
  encodeURIComponent s = encodeURIComponent s' -> s = s'.
Proof.
  revert s'; induction s as [| ch rest IH]; intros [| ch' rest'];
    cbn -[Nat.div Nat.modulo hex_digit uri_unreserved].
  - reflexivity.
  - destruct (uri_unreserved ch'); discriminate.
  - destruct (uri_unreserved ch); discriminate.
  - destruct (uri_unreserved ch) eqn:Hch; destruct (uri_unreserved ch') eqn:Hch'.
    + intros [= -> H]. rewrite (IH _ H). reflexivity.
    + intros [= -> _]. discriminate.
    + intros [= <- _]. discriminate.
    + intros [= Hhigh Hlow H]. rewrite (IH _ H). f_equal.
      rewrite <- (ascii_nat_embedding ch), <- (ascii_nat_embedding ch').
      f_equal.
      exact (hex_pair_inj (nat_of_ascii ch) (nat_of_ascii ch')
               (code_below_256 ch) (code_below_256 ch') Hhigh Hlow).
Qed.

(** X9.  The query goes into the URL percent-encoded: between [address=]
    and [&key=] there are only unreserved characters, [%] and hexadecimal
    digits, so no [&], [=], [#] or space of a cell can end the parameter
    or add one. *)
Theorem address_is_percent_encoded (c : State.t) (address : string) :
  geocode_url c address
  = ("https://maps.googleapis.com/maps/api/geocode/json?address="
     ++ encodeURIComponent address ++ "&key=" ++ State.apiKey c)%string
  /\ Forall (fun ch => uri_unreserved ch = true \/ ch = "%"%char)
            (list_ascii_of_string (encodeURIComponent address))
  /\ Forall (fun ch => ~ In ch (list_ascii_of_string (encodeURIComponent address)))
            ["&"%char; "="%char; "#"%char; " "%char; "?"%char; "/"%char; "+"%char].
Proof.
  split; [reflexivity |]. split; [apply encodeURIComponent_chars |].
  pose proof (encodeURIComponent_chars address) as H.
  rewrite Forall_forall in H.
  repeat constructor; intros Hin; apply H in Hin;
    destruct Hin as [Hin | Hin]; discriminate.
Qed.

(** X10.  With the same key, two queries have the same URL only if they
    are the same text: the encoding loses nothing of a query. *)
Theorem url_determines_the_query (c : State.t) (address address' : string) :
  geocode_url c address = geocode_url c address' -> address = address'.
Proof.
  unfold geocode_url. intros H.
  apply (f_equal list_ascii_of_string) in H.
  rewrite !chars_append in H.
  apply app_inv_head in H. rewrite !app_assoc in H.
  apply app_inv_tail in H. apply app_inv_tail in H.
  apply encodeURIComponent_inj, chars_inj, H.
Qed.

(** ** Rows without a query, rows with one *)

(** X16.  A row in which every chosen column is empty, or missing under a
    name that [Object.prototype] has no member of, is skipped when its
    query is built: its 1-based index goes to [skippedRows], no request is
    made for it, and the output gets a copy of it, with the fields of the
    row in their order and the value of each. *)
Theorem blank_row_is_skipped_without_request
    (E : engine) (net : service) (c : State.t) (i n : nat) (row : record)
    (s : frame) :
  Forall (fun col =>
            col = ""
            \/ (lookup col row = None /\ inherited col = false)
            \/ lookup col row = Some (Text ""))
         [State.addressCol c; State.cityCol c; State.countryCol c] ->
  let s' := snd (iteration E net c i n row s) in
  fst (iteration E net c i n row s) = inr tt
  /\ results s' = push_skippedRows (i + 1) (results s)
  /\ (exists o,
        processed s' = processed s ++ [o]
        /\ keys o = keys row
        /\ forall k, lookup k o = option_map cell_value (lookup k row))
  /\ log s' = log s ++ [SetProgress (percent i n); Timeout 200]
  /\ requests (log s') = requests (log s).
Proof.
  intros Hblank s'. subst s'. rewrite iteration_after. cbn [fst snd].
  assert (Hparts : locationParts c row = []).
  { inversion_clear Hblank as [| ? ? Ha Hrest].
    inversion_clear Hrest as [| ? ? Hb Hrest'].
    inversion_clear Hrest' as [| ? ? Hc _].
    unfold locationParts.
    rewrite (part_blank _ _ Ha), (part_blank _ _ Hb), (part_blank _ _ Hc).
    reflexivity. }
  unfold after, handling, requested. rewrite (query_none _ _ _ Hparts).
  cbn [results processed log tally_after row_after app].
  split; [reflexivity |]. split; [reflexivity |]. split; [| split].
  - exists (spread row). split; [reflexivity |].
    split; [apply keys_spread | intros k; apply lookup_spread].
  - reflexivity.
  - rewrite requests_app. simpl. lia.
Qed.

(** X17.  For a row with at least one chosen column that is not empty, and
    no chosen column that is missing under the name of a member of
    [Object.prototype], the text handed to [geocodeAddress] is the values
    of the chosen, non-empty columns, in the order address, city, country,
    joined with a comma and a space; the one request of the row carries
    it. *)
Theorem query_joins_selected_values
    (E : engine) (net : service) (c : State.t) (i n : nat) (row : record)
    (s : frame) :
  plain_columns c row = true ->
  filter cell_truthy (selected_values c row) <> [] ->
  join E ", " (locationParts c row) = location_query c row
  /\ query E c row = Some (location_query c row)
  /\ log (snd (iteration E net c i n row s))
     = log s ++ [Fetch (geocode_url c (location_query c row));
                 SetProgress (percent i n); Timeout 200].
Proof.
  intros Hplain Hsome.
  assert (Hparts : locationParts c row <> []).
  { rewrite (locationParts_selected c row Hplain).
    destruct (filter cell_truthy (selected_values c row));
      [congruence | discriminate]. }
  assert (Hjoin : join E ", " (locationParts c row) = location_query c row).
  { rewrite (locationParts_selected c row Hplain). apply join_fields. }
  split; [exact Hjoin |].
  rewrite iteration_after. cbn [snd]. unfold after, requested; cbn [log].
  rewrite (query_some _ _ _ Hparts), Hjoin. split; reflexivity.
Qed.

(** * The page *)

Lemma selectors_of_row (positive : string -> bool) (first : record) :
  Page.selectors positive (Page.FirstRow first) = Page.Hidden
  \/ Page.selectors positive (Page.FirstRow first) = Page.RenderError.
Proof.
  unfold Page.selectors.
  destruct (Page.length_positive positive (Page.FirstRow first)); auto.
Qed.

Lemma unselected_offers_nothing (positive : string -> bool) (p : Page.t)
    (values : list string) :
  Page.unselected p ->
  Page.selectors positive (Page.headers p) <> Page.Options values.
Proof.
  intros (_ & _ & _ & [-> | [first ->]]).
  - discriminate.
  - destruct (selectors_of_row positive first) as [-> | ->]; discriminate.
Qed.

Lemma reachable_unselected (positive : string -> bool) (p : Page.t) :
  Page.reachable positive p -> Page.unselected p.
Proof.
  induction 1 as [| chosen p _ IH | text p _ IH
                  | values v p _ IH Hshown _ | values v p _ IH Hshown _
                  | values v p _ IH Hshown _ | f p _ IH Hf].
  - unfold Page.unselected; simpl. auto.
  - destruct IH as (Ha & Hb & Hc & Hh).
    destruct chosen as [[[| first rest] | text] |]; unfold Page.unselected; simpl;
      eauto 6.
  - exact IH.
  - destruct (unselected_offers_nothing positive p values IH Hshown).
  - destruct (unselected_offers_nothing positive p values IH Hshown).
  - destruct (unselected_offers_nothing positive p values IH Hshown).
  - destruct IH as (Ha & Hb & Hc & Hh).
    destruct Hf; unfold Page.unselected; simpl; auto.
Qed.

(** X11.  Choosing a file stores it and takes the previous run off the
    page: no error message, no tally, no output, so the Download button is
    gone and [downloadResults] does nothing.  The key, the chosen columns,
    [processing] and [progress] stay as they were; with no file chosen
    nothing changes at all. *)
Theorem upload_clears_the_previous_run
    (unparse : list augmented -> string) (object_url : string)
    (p : Page.t) (f : File) :
  let p' := Page.handleFileUpload (Some f) p in
  State.file (Page.core p') = Some f
  /\ State.error (Page.core p') = ""
  /\ State.results (Page.core p') = None
  /\ State.geocodedData (Page.core p') = None
  /\ Page.download_shown (Page.core p') = false
  /\ Page.downloadResults unparse object_url (Page.core p') = []
  /\ State.apiKey (Page.core p') = State.apiKey (Page.core p)
  /\ State.addressCol (Page.core p') = State.addressCol (Page.core p)
  /\ State.cityCol (Page.core p') = State.cityCol (Page.core p)
  /\ State.countryCol (Page.core p') = State.countryCol (Page.core p)
  /\ State.processing (Page.core p') = State.processing (Page.core p)
  /\ State.progress (Page.core p') = State.progress (Page.core p)
  /\ Page.handleFileUpload None p = p.
Proof.
  destruct f as [[| first rest] | text]; simpl; repeat split.
Qed.

(** X12.  After a file with rows is chosen, [headers] holds its first row,
    not the names of its columns.  The block of the three selectors is
    then never rendered with its options: it is left out when the row has
    no field [length], and otherwise left out or fails to render.  A file
    without rows, or one that cannot be read, leaves [headers] as it
    was. *)
Theorem upload_stores_the_first_row
    (positive : string -> bool) (p : Page.t) (first : record)
    (rest : list record) :
  let p' := Page.handleFileUpload (Some (Complete (first :: rest))) p in
  Page.headers p' = Page.FirstRow first
  /\ (forall values, Page.selectors positive (Page.headers p') <> Page.Options values)
  /\ (lookup "length" first = None ->
      Page.selectors positive (Page.headers p') = Page.Hidden)
  /\ Page.headers (Page.handleFileUpload (Some (Complete [])) p) = Page.headers p
  /\ (forall text,
         Page.headers (Page.handleFileUpload (Some (Unreadable text)) p)
         = Page.headers p).
Proof.
  simpl. split; [reflexivity |]. split; [| split; [| split; reflexivity]].
  - intros values.
    destruct (selectors_of_row positive first) as [-> | ->]; discriminate.
  - intros Hnone. unfold Page.selectors, Page.length_positive.
    rewrite Hnone. reflexivity.
Qed.

(** X13.  In no state the page can reach is a column chosen: the
    selectors are never offered, since [headers] never becomes a non-empty
    array.  So every run started from the page is refused by the first
    guard of [processFile] and makes no request. *)
Theorem no_column_can_be_chosen
    (positive : string -> bool) (p : Page.t) :
  Page.reachable positive p ->
  State.addressCol (Page.core p) = ""
  /\ State.cityCol (Page.core p) = ""
  /\ State.countryCol (Page.core p) = ""
  /\ (forall values, Page.selectors positive (Page.headers p) <> Page.Options values)
  /\ forall (E : engine) (net : service),
      log (run E net (Page.core p))
      = [SetError "Please select a file and at least one location column"]
      /\ requests (log (run E net (Page.core p))) = 0.
Proof.
  intros Hreach. pose proof (reachable_unselected positive p Hreach) as Hinv.
  pose proof Hinv as (Ha & Hb & Hc & _).
  repeat split; auto.
  - intros values. apply unselected_offers_nothing, Hinv.
  - rewrite (run_refused E net (Page.core p)
               "Please select a file and at least one location column");
      [reflexivity |].
    unfold refusal. rewrite Ha, Hb, Hc.
    destruct (State.file (Page.core p)); reflexivity.
  - rewrite (run_refused E net (Page.core p)
               "Please select a file and at least one location column");
      [reflexivity |].
    unfold refusal. rewrite Ha, Hb, Hc.
    destruct (State.file (Page.core p)); reflexivity.
Qed.

(** X14.  [downloadResults] hands out the output of the last completed
    run: after a completed run one file [geocoded_data.csv] of type
    [text/csv], made of the rows of that run, as many as the input had,
    and its URL is revoked; after a run that was refused or could not read
    its file, whatever was there before the run. *)
Theorem download_follows_the_last_completed_run
    (unparse : list augmented -> string) (object_url : string)
    (E : engine) (net : service) (c : State.t) :
  (forall data,
      State.file c = Some (Complete data) ->
      configured c = true ->
      exists out,
        State.geocodedData (ui (run E net c)) = Some out
        /\ List.length out = List.length data
        /\ Page.download_shown (ui (run E net c)) = true
        /\ Page.downloadResults unparse object_url (ui (run E net c))
           = [Page.CreateObjectURL (unparse out) "text/csv";
              Page.Click object_url "geocoded_data.csv";
              Page.RevokeObjectURL object_url])
  /\ (configured c = false ->
      Page.downloadResults unparse object_url (ui (run E net c))
      = Page.downloadResults unparse object_url c)
  /\ (forall text,
         State.file c = Some (Unreadable text) ->
         configured c = true ->
         Page.downloadResults unparse object_url (ui (run E net c))
         = Page.downloadResults unparse object_url c).
Proof.
  split; [| split].
  - intros data Hfile Hready. eexists.
    split; [apply (run_geocodedData E net c data Hfile Hready) |].
    split; [apply rows_after_length, handlings_length |].
    unfold Page.download_shown, Page.downloadResults.
    rewrite (run_geocodedData E net c data Hfile Hready). split; reflexivity.
  - intros Hno. destruct (unconfigured_refusal c Hno) as [text Htext].
    rewrite (run_refused E net c text Htext). reflexivity.
  - intros text Hfile Hready.
    rewrite (run_unreadable E net c text Hfile Hready). reflexivity.
Qed.

(** * More sample runs *)

Lemma requests_follow_the_rows_witness :
  Page.fetched (log (run Sample.engine Sample.mixed (Sample.ready Sample.table)))
  = ["https://maps.googleapis.com/maps/api/geocode/json?address=1%20Main%20St%2C%20Springfield&key=KEY";
     "https://maps.googleapis.com/maps/api/geocode/json?address=5%20Elm%20St%2C%20Shelbyville&key=KEY";
     "https://maps.googleapis.com/maps/api/geocode/json?address=9%20Oak%20Ave%2C%20Ogdenville&key=KEY"]
  /\ requests (log (run Sample.engine Sample.mixed (Sample.ready Sample.table))) = 3.
Proof.
  destruct (requests_follow_the_rows Sample.engine Sample.mixed
              (Sample.ready Sample.table) Sample.table eq_refl eq_refl)
    as (Hfetched & Hrequests & _).
  split; [exact Hfetched | exact Hrequests].
Defined.

Lemma unreadable_file_is_reported_witness :
  State.error
    (ui (run Sample.engine Sample.mixed
           (Sample.component (Some (Unreadable "NotReadableError"))
              "KEY" "addr" "city" "")))
  = "Error processing file: NotReadableError"
  /\ requests
       (log (run Sample.engine Sample.mixed
               (Sample.component (Some (Unreadable "NotReadableError"))
                  "KEY" "addr" "city" ""))) = 0.
Proof.
  destruct (unreadable_file_is_reported Sample.engine Sample.mixed
              (Sample.component (Some (Unreadable "NotReadableError"))
                 "KEY" "addr" "city" "")
              "NotReadableError" eq_refl eq_refl)
    as (Herror & _ & Hrequests & _).
  split; [exact Herror | exact Hrequests].
Defined.

Lemma completed_run_ends_idle_witness :
  State.processing
    (ui (run Sample.engine Sample.mixed (Sample.ready Sample.table))) = false
  /\ Page.rejections
       (log (run Sample.engine Sample.mixed (Sample.ready Sample.table))) = []
  /\ (State.progress
        (ui (run Sample.engine Sample.mixed (Sample.ready Sample.table))) == 100)%Q.
Proof.
  destruct (completed_run_ends_idle Sample.engine Sample.mixed
              (Sample.ready Sample.table) Sample.table eq_refl eq_refl)
    as (Hidle & _ & Hnone & Hprogress & _).
  split; [exact Hidle | split; [exact Hnone | exact Hprogress]].
Defined.

Lemma skipped_rows_are_ordered_row_numbers_witness :
  exists r,
    State.results (ui (run Sample.engine Sample.mixed (Sample.ready Sample.table)))
    = Some r
    /\ StronglySorted lt (skippedRows r)
    /\ Forall (fun x => 1 <= x <= totalRows r) (skippedRows r)
    /\ processedRows r <= totalRows r.
Proof.
  apply (skipped_rows_are_ordered_row_numbers Sample.engine Sample.mixed
           (Sample.ready Sample.table) Sample.table); reflexivity.
Defined.

Lemma every_failed_row_is_recorded_witness :
  exists r,
    State.results (ui (run Sample.engine Sample.mixed (Sample.ready Sample.table)))
    = Some r
    /\ In {| row := 3; error := "Geocoding failed: REQUEST_DENIED";
             location := "5 Elm St, Shelbyville" |} (errors r)
    /\ StronglySorted lt (map row (errors r)).
Proof.
  destruct (every_failed_row_is_recorded Sample.engine Sample.mixed
              (Sample.ready Sample.table) Sample.table eq_refl eq_refl)
    as (r & Hr & Hin & Hsorted & _).
  exists r. split; [exact Hr |]. split; [| exact Hsorted].
  apply (Hin 2 Sample.elm_street "Geocoding failed: REQUEST_DENIED");
    reflexivity.
Defined.

Lemma unresolved_rows_pass_unchanged_witness :
  exists out,
    State.geocodedData
      (ui (run Sample.engine Sample.mixed (Sample.ready Sample.table))) = Some out
    /\ nth_error out 3
       = Some [("addr", Str "9 Oak Ave"); ("Latitude", Str "old");
               ("city", Str "Ogdenville")].
Proof.
  destruct (unresolved_rows_pass_unchanged Sample.engine Sample.mixed
              (Sample.ready Sample.table) Sample.table eq_refl eq_refl)
    as (out & Hout & Hrows).
  exists out. split; [exact Hout |].
  apply (Hrows 3 Sample.surveyed); [reflexivity | discriminate].
Defined.

Lemma url_determines_the_query_witness :
  geocode_url (Sample.ready Sample.table) "1 Main St, Springfield"
  = "https://maps.googleapis.com/maps/api/geocode/json?address=1%20Main%20St%2C%20Springfield&key=KEY"
  /\ "1 Main St, Springfield" = "1 Main St, Springfield".
Proof.
  split; [reflexivity |].
  apply (url_determines_the_query (Sample.ready Sample.table)); reflexivity.
Defined.

(** A file is chosen and a key entered: no column is chosen, none can be,
    and the run is refused. *)
Lemma no_column_can_be_chosen_witness :
  State.file
    (Page.core
       (Page.on_core (Page.with_apiKey "KEY")
          (Page.handleFileUpload (Some (Complete Sample.table)) Page.initial)))
  = Some (Complete Sample.table)
  /\ State.addressCol
       (Page.core
          (Page.on_core (Page.with_apiKey "KEY")
             (Page.handleFileUpload (Some (Complete Sample.table)) Page.initial)))
     = ""
  /\ log (run Sample.engine Sample.mixed
            (Page.core
               (Page.on_core (Page.with_apiKey "KEY")
                  (Page.handleFileUpload (Some (Complete Sample.table))
                     Page.initial))))
     = [SetError "Please select a file and at least one location column"].
Proof.
  assert (H : Page.reachable (fun _ => true)
                (Page.on_core (Page.with_apiKey "KEY")
                   (Page.handleFileUpload (Some (Complete Sample.table))
                      Page.initial))).
  { apply Page.after_key, Page.after_upload, Page.at_first. }
  destruct (no_column_can_be_chosen (fun _ => true) _ H)
    as (Haddress & _ & _ & _ & Hrun).
  split; [reflexivity |]. split; [exact Haddress |].
  exact (proj1 (Hrun Sample.engine Sample.mixed)).
Defined.

Lemma blank_row_is_skipped_without_request_witness :
  results
    (snd (iteration Sample.engine Sample.mixed (Sample.ready Sample.table) 1 4
            Sample.blank (begun (Sample.ready Sample.table) 4)))
  = {| totalRows := 4; processedRows := 0; skippedRows := [2]; errors := [] |}
  /\ processed
       (snd (iteration Sample.engine Sample.mixed (Sample.ready Sample.table) 1 4
               Sample.blank (begun (Sample.ready Sample.table) 4)))
     = [[("addr", Str ""); ("city", Str "")]]
  /\ requests
       (log (snd (iteration Sample.engine Sample.mixed (Sample.ready Sample.table)
                    1 4 Sample.blank (begun (Sample.ready Sample.table) 4))))
     = 0.
Proof.
  assert (H : Forall (fun col =>
                        col = ""
                        \/ (lookup col Sample.blank = None /\ inherited col = false)
                        \/ lookup col Sample.blank = Some (Text ""))
                     [State.addressCol (Sample.ready Sample.table);
                      State.cityCol (Sample.ready Sample.table);
                      State.countryCol (Sample.ready Sample.table)]).
  { constructor; [right; right; reflexivity |].
    constructor; [right; right; reflexivity |].
    constructor; [left; reflexivity | constructor]. }
  destruct (blank_row_is_skipped_without_request Sample.engine Sample.mixed
              (Sample.ready Sample.table) 1 4 Sample.blank
              (begun (Sample.ready Sample.table) 4) H)
    as (_ & Hresults & _ & _ & Hrequests).
  split; [exact Hresults |]. split; [reflexivity | exact Hrequests].
Defined.

Lemma query_joins_selected_values_witness :
  query Sample.engine (Sample.ready Sample.table) Sample.surveyed
  = Some "9 Oak Ave, Ogdenville"
  /\ log (snd (iteration Sample.engine Sample.mixed (Sample.ready Sample.table) 3 4
                 Sample.surveyed (begun (Sample.ready Sample.table) 4)))
     = [SetProcessing true; SetError ""; SetProgress 0;
        Fetch "https://maps.googleapis.com/maps/api/geocode/json?address=9%20Oak%20Ave%2C%20Ogdenville&key=KEY";
        SetProgress (percent 3 4); Timeout 200].
Proof.
  assert (H : filter cell_truthy
                (selected_values (Sample.ready Sample.table) Sample.surveyed) <> []).
  { discriminate. }
  destruct (query_joins_selected_values Sample.engine Sample.mixed
              (Sample.ready Sample.table) 3 4 Sample.surveyed
              (begun (Sample.ready Sample.table) 4) eq_refl H)
    as (_ & Hquery & Hlog).
  split; [exact Hquery | exact Hlog].
Defined.

(** * Cells and values *)

(** The text [join] gives a cell is the text ToString gives its value. *)
Lemma cell_text_ToString (E : engine) (x : cell) :
  ToString E (cell_value x) = inr (cell_text x).
Proof.
  destruct x as [s | fields]; [reflexivity |].
  unfold cell_value, cell_text. cbn [ToString].
  assert (H : (fix each (l : list value) : exn + list string :=
                 match l with
                 | [] => inr []
                 | x :: rest =>
                     match (if nullish x then inr "" else ToString E x) with
                     | inl e => inl e
                     | inr t =>
                         match each rest with
                         | inl e => inl e
                         | inr ts => inr (t :: ts)
                         end
                     end
                 end) (map Str fields) = inr fields).
  { induction fields as [| f rest IH]; [reflexivity |].
    cbn [map nullish ToString]. rewrite IH. reflexivity. }
  rewrite H. reflexivity.
Qed.
